(** * cdata: conversion between dataclasses and ctypes structures

    A shallow embedding of [src/cdata/core.py].

    The module converts between instances of [ctypes.Structure] classes and
    instances of dataclasses that mix in [CDataMixIn].  The development has
    three layers:

    - the part of the [ctypes] library that [core.py] relies on (binary
      types, instances, attribute access on structures, array construction);
    - Python values, truthiness, iteration, and the monad of state and
      exceptions in which the code runs;
    - the functions of [core.py], one definition per function, each loop
      written as a fold of its body over [_fields_].

    Scope.  Binary types are the integer types, [c_bool], [c_char], arrays
    and structures; instances are represented field by field, so unions,
    pointers, floating point and the byte layout (packing, byte order) are
    not modelled, and [from_buffer] takes the function that reads a buffer as
    a parameter.  Sequences on the Python side are lists and [bytes].
    Dataclasses are plain ones (no [__post_init__], no [init=False] fields).
    [to_dict] is not modelled. *)

From stdpp Require Import gmap strings list fin_maps.
From Stdlib Require Import ZArith.
From Stdlib.Strings Require Import Byte.

Set Warnings "-register-all".
Set Default Proof Using "Type".

(** ** Binary types *)

(** The class a generated structure derives from ([_cdata_base_]).
    [_create_dataclass] stores the structure class itself as the base of the
    dataclass it synthesises: [StructureSubclass sid].  A [ctypes.Union] base
    is outside the model: the fields of a union overlap in memory, which the
    field-wise representation of instances below cannot express. *)
Inductive cbase :=
| Structure
| BigEndianStructure
| LittleEndianStructure
| StructureSubclass (parent : nat).

#[global] Instance cbase_eq_dec : EqDecision cbase.
Proof. solve_decision. Defined.

Definition cbase_code (b : cbase) : nat + nat :=
  match b with
  | Structure => inl 0
  | BigEndianStructure => inl 1
  | LittleEndianStructure => inl 2
  | StructureSubclass p => inr p
  end.

Definition cbase_of_code (c : nat + nat) : cbase :=
  match c with
  | inl 0 => Structure
  | inl 1 => BigEndianStructure
  | inl _ => LittleEndianStructure
  | inr p => StructureSubclass p
  end.

#[global] Instance cbase_countable : Countable cbase :=
  inj_countable' cbase_code cbase_of_code
    (λ b, match b with
          | Structure | BigEndianStructure | LittleEndianStructure
          | StructureSubclass _ => eq_refl
          end).

(** A structure class: an object with an identity ([sid]), a [__name__], its
    base, [_pack_] (absent on a hand-written structure that does not set it)
    and the [_fields_] list it was given. *)
Record struct_class_ (T : Type) := StructClass {
  sid : nat;
  sname : string;
  sbase : cbase;
  spack : option Z;
  sfields : list (string * T);
}.
Arguments StructClass {T} _ _ _ _ _.
Arguments sid {T} _.
Arguments sname {T} _.
Arguments sbase {T} _.
Arguments spack {T} _.
Arguments sfields {T} _.

(** Binary types.  [c_int signed bits] covers [c_int8] ... [c_uint64];
    [c_array elem len] is [elem * len]. Floating point and pointer types are
    not modelled. *)
Inductive ctype :=
| c_int (signed : bool) (bits : Z)
| c_bool
| c_char
| c_array (elem : ctype) (len : nat)
| c_struct (s : struct_class_ ctype).

Abbreviation struct_class := (struct_class_ ctype).

Definition c_uint8 := c_int false 8.
Definition c_uint16 := c_int false 16.
Definition c_uint32 := c_int false 32.
Definition c_int32 := c_int true 32.

(** Identity of type objects ([is]).  Structure classes are compared by
    identity; [ctypes] caches array types, so [elem * len] evaluated twice is
    the same object. *)
Fixpoint ctype_is (a b : ctype) : bool :=
  match a, b with
  | c_int s w, c_int s' w' => bool_decide (s = s') && bool_decide (w = w')
  | c_bool, c_bool => true
  | c_char, c_char => true
  | c_array e n, c_array e' n' => ctype_is e e' && bool_decide (n = n')
  | c_struct s, c_struct s' => bool_decide (sid s = sid s')
  | _, _ => false
  end.

(** ** Binary instances *)

(** The content of a binary instance, field by field.  An integer slot holds
    the value already reduced to the range of its type. *)
Inductive cdata :=
| CInt (z : Z)
| CBool (b : bool)
| CChar (b : byte)
| CArray (elem : ctype) (es : list cdata)
| CStruct (cls : struct_class) (fs : gmap string cdata).

(** The zero-initialised instance [t()]. *)
Fixpoint zero_of (t : ctype) : cdata :=
  match t with
  | c_int _ _ => CInt 0
  | c_bool => CBool false
  | c_char => CChar x00
  | c_array e n => CArray e (replicate n (zero_of e))
  | c_struct s =>
      CStruct s (list_to_map (List.map (λ p, (p.1, zero_of p.2)) (sfields s)))
  end.

(** [isinstance(c, t)] for an array or structure type [t]. *)
Definition isinstance (c : cdata) (t : ctype) : bool :=
  match c, t with
  | CArray e es, c_array e' n => ctype_is e e' && bool_decide (length es = n)
  | CStruct s _, c_struct s' => bool_decide (sid s = sid s')
  | _, _ => false
  end.

(** Last binding of a name in an association list: assigning [_fields_]
    installs one descriptor per entry, a later one replacing an earlier one
    of the same name. *)
Fixpoint assoc {A} (k : string) (l : list (string * A)) : option A :=
  match l with
  | [] => None
  | (k', a) :: l' =>
      match assoc k l' with
      | Some b => Some b
      | None => if decide (k = k') then Some a else None
      end
  end.

(** ** Python values *)

Inductive pyval :=
| PNone
| PInt (z : Z)
| PBool (b : bool)
| PBytes (bs : list byte)
| PStr (s : string)
| PList (l : list pyval)
| PC (c : cdata)                              (* a ctypes instance *)
| PData (cls : nat) (attrs : gmap string pyval). (* a dataclass instance *)

(** [type(v)].  [t_float] has no values in the model; it is listed because
    the decoder tests for it. *)
Inductive pytype :=
| t_NoneType | t_int | t_float | t_bool | t_bytes | t_str | t_list
| t_ctypes
| t_dataclass (cls : nat).

#[global] Instance pytype_eq_dec : EqDecision pytype.
Proof. solve_decision. Defined.

Definition type_of (v : pyval) : pytype :=
  match v with
  | PNone => t_NoneType
  | PInt _ => t_int
  | PBool _ => t_bool
  | PBytes _ => t_bytes
  | PStr _ => t_str
  | PList _ => t_list
  | PC _ => t_ctypes
  | PData cls _ => t_dataclass cls
  end.

Definition is_nil {A} (l : list A) : bool :=
  match l with [] => true | _ => false end.

(** [bool(v)].  A ctypes array is true when its length is not zero, a simple
    ctypes object when its content is not zero; structures and dataclass
    instances define neither [__bool__] nor [__len__] and are true. *)
Definition truthy (v : pyval) : bool :=
  match v with
  | PNone => false
  | PInt z => negb (Z.eqb z 0)
  | PBool b => b
  | PBytes bs => negb (is_nil bs)
  | PStr s => negb (bool_decide (s = ""))
  | PList l => negb (is_nil l)
  | PC (CInt z) => negb (Z.eqb z 0)
  | PC (CBool b) => b
  | PC (CChar b) => negb (Byte.eqb b x00)
  | PC (CArray _ es) => negb (is_nil es)
  | PC (CStruct _ _) => true
  | PData _ _ => true
  end.

Inductive pyerr :=
| TypeError | ValueError | IndexError | AttributeError | RecursionError.

#[global] Instance pyerr_eq_dec : EqDecision pyerr.
Proof. solve_decision. Defined.

(** The result of an operation that may raise. *)
Abbreviation result A := (pyerr + A)%type.
Abbreviation Ok := inr (only parsing).
Abbreviation Raise := inl (only parsing).

(** ** Reading and writing binary slots *)

(** What reading an array element or a structure field returns: simple types
    are converted to Python values, arrays and structures are returned as
    ctypes objects. *)
Definition to_py (c : cdata) : pyval :=
  match c with
  | CInt z => PInt z
  | CBool b => PBool b
  | CChar b => PBytes [b]
  | _ => PC c
  end.

Fixpoint until_nul (bs : list byte) : list byte :=
  match bs with
  | [] => []
  | b :: bs' => if Byte.eqb b x00 then [] else b :: until_nul bs'
  end.

Definition char_of (c : cdata) : byte :=
  match c with CChar b => b | _ => x00 end.

(** Reading a structure field.  A field whose type is an array of [c_char]
    is read as the bytes before the first NUL. *)
Definition field_get (t : ctype) (c : cdata) : pyval :=
  match t, c with
  | c_array c_char _, CArray _ es => PBytes (until_nul (char_of <$> es))
  | _, _ => to_py c
  end.

(** Integer conversion of the integer setters: no overflow check, the value
    is reduced modulo [2 ^ bits]. *)
Definition wrap (signed : bool) (bits z : Z) : Z :=
  let m := (z mod 2 ^ bits)%Z in
  if signed && (2 ^ (bits - 1) <=? m)%Z then (m - 2 ^ bits)%Z else m.

Definition as_int (v : pyval) : option Z :=
  match v with
  | PInt z => Some z
  | PBool b => Some (Z.b2z b)
  | _ => None
  end.

Definition byte_of_Z (z : Z) : byte :=
  default x00 (Byte.of_N (Z.to_N z)).

(** Writing an array element (and any slot that is not a [c_char]-array
    field): the setter of the simple type, or a copy of an instance of the
    array or structure type. *)
Definition slot_set (t : ctype) (v : pyval) : result cdata :=
  match t with
  | c_int s w =>
      match as_int v with
      | Some z => Ok (CInt (wrap s w z))
      | None => Raise TypeError
      end
  | c_bool => Ok (CBool (truthy v))
  | c_char =>
      match v with
      | PBytes [b] => Ok (CChar b)
      | _ =>
          match as_int v with
          | Some z =>
              if bool_decide (0 ≤ z < 256)%Z then Ok (CChar (byte_of_Z z))
              else Raise TypeError
          | None => Raise TypeError
          end
      end
  | c_array _ _ | c_struct _ =>
      match v with
      | PC c => if isinstance c t then Ok c else Raise TypeError
      | _ => Raise TypeError
      end
  end.

(** Writing a [c_char]-array field of [n] bytes whose content was [old]:
    only [bytes] are accepted; the data before the first NUL is copied,
    followed by a NUL when there is room; the rest of the field is left as
    it was. *)
Definition chars_set (n : nat) (old : list cdata) (v : pyval) : result cdata :=
  match v with
  | PBytes bs =>
      let data := until_nul bs in
      if bool_decide (n < length data) then Raise ValueError
      else Ok (CArray c_char
                 (take n ((CChar <$> data) ++ [CChar x00])
                  ++ drop (S (length data)) old))
  | _ => Raise TypeError
  end.

(** Writing a structure field. *)
Definition field_set (t : ctype) (old : cdata) (v : pyval) : result cdata :=
  match t with
  | c_array c_char n =>
      chars_set n (match old with CArray _ es => es | _ => [] end) v
  | _ => slot_set t v
  end.

(** [getattr(structure, name)] for a field name. *)
Definition struct_getattr (structure : pyval) (name : string) : result pyval :=
  match structure with
  | PC (CStruct s fs) =>
      match assoc name (sfields s), fs !! name with
      | Some t, Some c => Ok (field_get t c)
      | _, _ => Raise AttributeError
      end
  | _ => Raise AttributeError
  end.

(** [setattr(structure, name, v)].  A name that is not a field only adds a
    Python attribute to the object and leaves the binary content alone. *)
Definition struct_setattr (structure : cdata) (name : string) (v : pyval)
  : result cdata :=
  match structure with
  | CStruct s fs =>
      match assoc name (sfields s) with
      | Some t =>
          match field_set t (default (zero_of t) (fs !! name)) v with
          | inr c => Ok (CStruct s (<[name := c]> fs))
          | inl e => Raise e
          end
      | None => Ok structure
      end
  | _ => Ok structure
  end.

(** [getattr(structure, "_fields_", [])] *)
Definition fields_of (structure : pyval) : list (string * ctype) :=
  match structure with
  | PC (CStruct s _) => sfields s
  | _ => []
  end.

(** [hasattr(v, "_length_") and hasattr(v, "_type_")] *)
Definition has_length_and_type (v : pyval) : bool :=
  match v with PC (CArray _ _) => true | _ => false end.

(** [hasattr(v, "_fields_")] *)
Definition has_fields (v : pyval) : bool :=
  match v with PC (CStruct _ _) => true | _ => false end.

(** [v._type_] of an array. *)
Definition array_type (v : pyval) : option ctype :=
  match v with PC (CArray e _) => Some e | _ => None end.

(** [for e in v] *)
Definition iterate (v : pyval) : result (list pyval) :=
  match v with
  | PList l => Ok l
  | PBytes bs => Ok ((λ b, PInt (Z.of_N (Byte.to_N b))) <$> bs)
  | PStr s => Ok ((λ a, PStr (String a EmptyString)) <$> String.list_ascii_of_string s)
  | PC (CArray _ es) => Ok (to_py <$> es)
  | _ => Raise TypeError
  end.


(** The body of the array constructor: the [i]-th argument is stored in
    element [i]; an argument beyond the length of the array raises
    [IndexError]; elements without an argument stay zero. *)
Fixpoint array_init (e : ctype) (es : list cdata) (i : nat) (args : list pyval)
  : result (list cdata) :=
  match args with
  | [] => Ok es
  | a :: args' =>
      if bool_decide (i < length es) then
        match slot_set e a with
        | inr c => array_init e (<[i := c]> es) (S i) args'
        | inl err => Raise err
        end
      else Raise IndexError
  end.

(** Calling an array type [t] on the argument list [args]. *)
Definition array_new (t : ctype) (args : list pyval) : result pyval :=
  match t with
  | c_array e n =>
      match array_init e (replicate n (zero_of e)) 0 args with
      | inr es => Ok (PC (CArray e es))
      | inl err => Raise err
      end
  | _ => Raise TypeError
  end.

(** ** Dataclasses, hooks and the interpreter state *)

(** A hook is a Python callable; it may keep mutable state of its own (a
    closure, a counter), which is threaded through its calls as a Python
    value.  Hooks that raise, or that modify their arguments, are not
    modelled. *)
Definition hook : Type :=
  string → ctype → pyval → pyval → pyval → pyval * pyval.

(** A field of a dataclass: its name, [metadata.get("ctype")], and the
    default value, which is what the class attribute of that name holds (the
    [dataclass] decorator removes the class attribute of a field declared
    without a default). *)
Record field := Field {
  f_name : string;
  f_ctype : option ctype;
  f_default : option pyval;
}.

Record dataclass := Dataclass {
  dc_name : string;                  (* __name__ *)
  dc_fields : list field;            (* dataclasses.fields(cls) *)
  dc_cdata_base : option cbase;      (* _cdata_base_, if set *)
  dc_cdata_pack : option Z;          (* _cdata_pack_, if set *)
  dc_decode_hook : option hook;      (* _decode_hook *)
  dc_encode_hook : option hook;      (* _encode_hook *)
}.

Record hook_call := HookCall {
  hc_name : string;
  hc_ctype : ctype;
  hc_cvalue : pyval;
  hc_dvalue : pyval;
}.

(** The state of the interpreter that [core.py] reads and writes: the class
    objects (allocated with increasing identities), the two [functools.cache]
    tables, the module-level [_STRUCTURE_DATACLASS_MAP], the memory of the
    hooks and the trace of the hook calls made so far. *)
Record state := State {
  next_id : nat;
  classes : gmap nat dataclass;
  ctypes_cache : gmap (nat * cbase * Z) struct_class;
  dataclass_cache : gmap nat nat;
  _STRUCTURE_DATACLASS_MAP : gmap string nat;
  hook_mem : pyval;
  hook_calls : list hook_call;
}.

Definition M (A : Type) : Type := state → result A * state.

Definition ret {A} (a : A) : M A := λ st, (Ok a, st).
Definition raise {A} (e : pyerr) : M A := λ st, (Raise e, st).
Definition lift {A} (r : result A) : M A := λ st, (r, st).
Definition bind {A B} (m : M A) (k : A → M B) : M B :=
  λ st, match m st with
        | (inr a, st') => k a st'
        | (inl e, st') => (Raise e, st')
        end.
Definition get : M state := λ st, (Ok st, st).

Notation "'let*' x ':=' m 'in' k" := (bind m (λ x, k))
  (at level 10, x name, m at level 100, k at level 200, only parsing).

(** A list comprehension [[f a for a in l]] whose element expression has
    effects. *)
Fixpoint forM {A B} (f : A → M B) (l : list A) : M (list B) :=
  match l with
  | [] => ret []
  | a :: l' => let* b := f a in let* bs := forM f l' in ret (b :: bs)
  end.

(** A [for] loop over [l] that updates the local [a]. *)
Fixpoint foldM {A B} (f : A → B → M A) (a : A) (l : list B) : M A :=
  match l with
  | [] => ret a
  | b :: l' => let* a' := f a b in foldM f a' l'
  end.

(** A fresh object identity. *)
Definition fresh : M nat :=
  λ st, (Ok (next_id st),
         State (S (next_id st)) (classes st) (ctypes_cache st)
               (dataclass_cache st) (_STRUCTURE_DATACLASS_MAP st)
               (hook_mem st) (hook_calls st)).

Definition add_class (id : nat) (dc : dataclass) : M unit :=
  λ st, (Ok tt,
         State (next_id st) (<[id := dc]> (classes st)) (ctypes_cache st)
               (dataclass_cache st) (_STRUCTURE_DATACLASS_MAP st)
               (hook_mem st) (hook_calls st)).

Definition cache_ctypes (k : nat * cbase * Z) (sc : struct_class) : M unit :=
  λ st, (Ok tt,
         State (next_id st) (classes st) (<[k := sc]> (ctypes_cache st))
               (dataclass_cache st) (_STRUCTURE_DATACLASS_MAP st)
               (hook_mem st) (hook_calls st)).

Definition cache_dataclass (k : nat) (d : nat) : M unit :=
  λ st, (Ok tt,
         State (next_id st) (classes st) (ctypes_cache st)
               (<[k := d]> (dataclass_cache st)) (_STRUCTURE_DATACLASS_MAP st)
               (hook_mem st) (hook_calls st)).

Definition map_set (name : string) (d : nat) : M unit :=
  λ st, (Ok tt,
         State (next_id st) (classes st) (ctypes_cache st)
               (dataclass_cache st) (<[name := d]> (_STRUCTURE_DATACLASS_MAP st))
               (hook_mem st) (hook_calls st)).

(** One call of a hook: it runs on the hook memory and is recorded. *)
Definition call_hook (h : hook) (cname : string) (ctype : ctype)
    (cvalue dataclass_value : pyval) : M pyval :=
  λ st, let '(r, mem) := h cname ctype cvalue dataclass_value (hook_mem st) in
        (Ok r,
         State (next_id st) (classes st) (ctypes_cache st)
               (dataclass_cache st) (_STRUCTURE_DATACLASS_MAP st) mem
               (hook_calls st ++ [HookCall cname ctype cvalue dataclass_value])).

(** The class object with a given identity. *)
Definition get_class (cls : nat) : M dataclass :=
  let* st := get in
  match classes st !! cls with
  | Some dc => ret dc
  | None => raise TypeError
  end.

(** [getattr(datacls, cname)] on a class: the default of the field of that
    name.  Field names are taken to differ from the names [CDataMixIn]
    itself defines; a class that is not a dataclass has no attribute named
    like a field. *)
Definition class_getattr (datacls : pytype) (cname : string) : M pyval :=
  match datacls with
  | t_dataclass cls =>
      let* dc := get_class cls in
      match list_find (λ f, f_name f = cname) (dc_fields dc) with
      | Some (_, f) =>
          match f_default f with
          | Some v => ret v
          | None => raise AttributeError
          end
      | None => raise AttributeError
      end
  | _ => raise AttributeError
  end.

(** [getattr(instance, cname)]: the instance attribute, else the class
    attribute. *)
Definition instance_getattr (instance : pyval) (cname : string) : M pyval :=
  match instance with
  | PData cls attrs =>
      match attrs !! cname with
      | Some v => ret v
      | None => class_getattr (t_dataclass cls) cname
      end
  | _ => raise AttributeError
  end.

(** Binding the keyword arguments of the generated [__init__] to the fields:
    a field takes its argument, else its default; a field with neither is a
    missing required argument. *)
Fixpoint bind_fields (fs : list field) (kwargs : gmap string pyval)
  : option (gmap string pyval) :=
  match fs with
  | [] => Some ∅
  | f :: fs' =>
      v ← from_option Some (f_default f) (kwargs !! f_name f);
      attrs ← bind_fields fs' kwargs;
      Some (<[f_name f := v]> attrs)
  end.

(** [cls( **kwargs )] for a dataclass: [TypeError] for an unexpected keyword
    or a missing required argument, raised when the arguments are bound,
    before the body of [__init__] assigns any field. *)
Definition dataclass_init (cls : nat) (dc : dataclass)
    (kwargs : gmap string pyval) : result pyval :=
  if bool_decide (map_Forall (λ k _, k ∈ f_name <$> dc_fields dc) kwargs) then
    match bind_fields (dc_fields dc) kwargs with
    | Some attrs => Ok (PData cls attrs)
    | None => Raise TypeError
    end
  else Raise TypeError.

(** [datacls( **d )].  For a class that is not a dataclass only the call
    without arguments is modelled (it returns the empty value of a built-in
    type). *)
Definition instantiate (datacls : pytype) (d : gmap string pyval) : M pyval :=
  match datacls with
  | t_dataclass cls => let* dc := get_class cls in lift (dataclass_init cls dc d)
  | _ =>
      if bool_decide (d = ∅) then
        match datacls with
        | t_NoneType => ret PNone
        | t_int => ret (PInt 0)
        | t_bool => ret (PBool false)
        | t_bytes => ret (PBytes [])
        | t_str => ret (PStr "")
        | t_list => ret (PList [])
        | _ => raise TypeError
        end
      else raise TypeError
  end.

(** ** The functions of [core.py] *)

(** [_create_ctypes_class], under [functools.cache]: a call whose arguments
    are in the cache returns the cached class.  Otherwise a new class named
    after the dataclass is created, [_pack_] and [_fields_] are set (ctypes
    rejects a [_pack_] that is not a non-negative C int with [ValueError] and
    a field without a binary type with [TypeError]), the dataclass is recorded
    under the name of the new class, and the result enters the cache.  A
    call that raises is not cached. *)
Definition _create_ctypes_class (datacls : nat) (base : cbase) (pack : Z)
  : M struct_class :=
  let* st := get in
  match ctypes_cache st !! (datacls, base, pack) with
  | Some generated => ret generated
  | None =>
      let* dc := get_class datacls in
      let structure_name := "_ctypes_generated_from_" +:+ dc_name dc in
      let* id := fresh in
      if bool_decide (0 ≤ pack < 2 ^ 31)%Z then
        match mapM (λ f, t ← f_ctype f; Some (f_name f, t))
                (dc_fields dc) with
        | Some flds =>
            let generated_ctypes_class :=
              StructClass id structure_name base (Some pack) flds in
            let* _ := map_set structure_name datacls in
            let* _ := cache_ctypes (datacls, base, pack) generated_ctypes_class in
            ret generated_ctypes_class
        | None => raise TypeError
        end
      else raise ValueError
  end.

(** [_create_dataclass], under [functools.cache] (keyed by the identity of
    the structure class).  The dataclass recorded under the name of the
    structure is returned if there is one; else a dataclass is synthesised
    with one field per entry of [_fields_] (no metadata, no default), and
    [_cdata_pack_] and [_cdata_base_] are set on it. *)
Definition _create_dataclass (structure : struct_class) : M nat :=
  let* st := get in
  match dataclass_cache st !! sid structure with
  | Some cached => ret cached
  | None =>
      match _STRUCTURE_DATACLASS_MAP st !! sname structure with
      | Some already_defined =>
          let* _ := cache_dataclass (sid structure) already_defined in
          ret already_defined
      | None =>
          let* generated_dataclass := fresh in
          match spack structure with
          | Some pack =>
              let* _ := add_class generated_dataclass
                {| dc_name := "_dataclass_generated_from_" +:+ sname structure;
                   dc_fields := (λ p, Field p.1 None None) <$> sfields structure;
                   dc_cdata_base := Some (StructureSubclass (sid structure));
                   dc_cdata_pack := Some pack;
                   dc_decode_hook := None;
                   dc_encode_hook := None |} in
              let* _ := cache_dataclass (sid structure) generated_dataclass in
              ret generated_dataclass
          | None => raise AttributeError
          end
      end
  end.

(** The test [hook is not None and hook(...) is not None], followed, when it
    holds, by the second call [hook(...)] whose value the caller stores. *)
Definition consult (hook : option hook) (cname : string) (ctype : ctype)
    (cvalue dataclass_value : pyval) : M (option pyval) :=
  match hook with
  | None => ret None
  | Some h =>
      let* tested := call_hook h cname ctype cvalue dataclass_value in
      match tested with
      | PNone => ret None
      | _ =>
          let* v := call_hook h cname ctype cvalue dataclass_value in
          ret (Some v)
      end
  end.

(** The body of the loop of [_ctypes2dataclass] for one entry
    [(cname, ctype)] of [_fields_]; [d] is the dictionary being filled and
    [rec] the recursive call. *)
Definition decode_field
    (rec : pytype → pyval → bool → option hook → M pyval)
    (datacls : pytype) (structure : pyval) (padding : bool)
    (hook : option hook) (d : gmap string pyval)
    (cname : string) (ctype : ctype) : M (gmap string pyval) :=
  let* cvalue := lift (struct_getattr structure cname) in
  let* dataclass_value := class_getattr datacls cname in
  let* hooked := consult hook cname ctype cvalue dataclass_value in
  match hooked with
  | Some v => ret (<[cname := v]> d)                           (* continue *)
  | None =>
      let* d :=
        if negb (bool_decide (type_of cvalue ∈ [t_int; t_float; t_bool]))
           && negb (truthy cvalue) then
          ret (<[cname := PNone]> d)
        else if has_length_and_type cvalue then
          let* es := lift (iterate cvalue) in
          match array_type cvalue with
          | Some (c_struct s) =>
              let* l :=
                forM (λ e, let* dc := _create_dataclass s in
                           rec (t_dataclass dc) e padding hook) es in
              ret (<[cname := PList l]> d)
          | _ => ret (<[cname := PList es]> d)
          end
        else if has_fields cvalue then
          let* v := rec (type_of dataclass_value) cvalue padding hook in
          ret (<[cname := v]> d)
        else ret d in
      (* By default *)
      ret (<[cname := cvalue]> d)
  end.

(** [_ctypes2dataclass].  [fuel] bounds the depth of the recursion, as the
    recursion limit of the interpreter does. *)
Fixpoint _ctypes2dataclass (fuel : nat) (datacls : pytype) (structure : pyval)
    (padding : bool) (hook : option hook) : M pyval :=
  match fuel with
  | 0 => raise RecursionError
  | S fuel =>
      let* d :=
        foldM (λ d f, decode_field (_ctypes2dataclass fuel) datacls structure
                        padding hook d f.1 f.2)
              ∅ (fields_of structure) in
      instantiate datacls d
  end.

(** [CDataMixIn.ctype]: [cls._cdata_base_] and [cls._cdata_pack_] are read,
    then the generator is called.  [cls] is the type of an object; only a
    dataclass has the method. *)
Definition ctype_method (cls : pytype) : M struct_class :=
  match cls with
  | t_dataclass id =>
      let* dc := get_class id in
      match dc_cdata_base dc, dc_cdata_pack dc with
      | Some base, Some pack => _create_ctypes_class id base pack
      | _, _ => raise AttributeError
      end
  | _ => raise AttributeError
  end.

(** The body of the loop of [_dataclass2ctypes] for one entry
    [(cname, ctype)] of [_fields_]; [structure] is the instance being
    filled. *)
Definition encode_field
    (rec : pyval → bool → option hook → M pyval)
    (datacls_instance : pyval) (padding : bool) (hook : option hook)
    (structure : cdata) (cname : string) (ctype : ctype) : M cdata :=
  let* cvalue := lift (struct_getattr (PC structure) cname) in
  let* dataclass_value := instance_getattr datacls_instance cname in
  let* hooked := consult hook cname ctype cvalue dataclass_value in
  match hooked with
  | Some v => lift (struct_setattr structure cname v)           (* continue *)
  | None =>
      let* structure :=
        if has_length_and_type cvalue then
          let* es := lift (iterate dataclass_value) in
          match array_type cvalue with
          | Some (c_struct _) =>
              let* l := forM (λ e, rec e padding hook) es in
              let* a := lift (array_new ctype l) in
              lift (struct_setattr structure cname a)
          | _ =>
              let* a := lift (array_new ctype es) in
              lift (struct_setattr structure cname a)
          end
        else if has_fields cvalue then
          let* v := rec dataclass_value padding hook in
          lift (struct_setattr structure cname v)
        else ret structure in
      (* By default *)
      lift (struct_setattr structure cname dataclass_value)
  end.

(** [_dataclass2ctypes] *)
Fixpoint _dataclass2ctypes (fuel : nat) (datacls_instance : pyval)
    (padding : bool) (hook : option hook) : M pyval :=
  match fuel with
  | 0 => raise RecursionError
  | S fuel =>
      let* cls := ctype_method (type_of datacls_instance) in
      let* structure :=
        foldM (λ structure f,
                 encode_field (_dataclass2ctypes fuel) datacls_instance
                   padding hook structure f.1 f.2)
              (zero_of (c_struct cls)) (sfields cls) in
      ret (PC structure)
  end.

(** ** [CDataMixIn] *)

(** [cls._decode_hook] / [cls._encode_hook] *)
Definition class_decode_hook (cls : pytype) : M (option hook) :=
  match cls with
  | t_dataclass id => let* dc := get_class id in ret (dc_decode_hook dc)
  | _ => raise AttributeError
  end.

Definition class_encode_hook (cls : pytype) : M (option hook) :=
  match cls with
  | t_dataclass id => let* dc := get_class id in ret (dc_encode_hook dc)
  | _ => raise AttributeError
  end.

(** [CDataMixIn.from_ctype] *)
Definition from_ctype (fuel : nat) (cls : nat) (structure : pyval)
    (padding : bool) (hook : option hook) : M pyval :=
  let* hook :=
    match hook with
    | None => class_decode_hook (t_dataclass cls)
    | Some _ => ret hook
    end in
  _ctypes2dataclass fuel (t_dataclass cls) structure padding hook.

(** [CDataMixIn.to_ctype] *)
Definition to_ctype (fuel : nat) (self : pyval) (padding : bool)
    (hook : option hook) : M pyval :=
  let* hook :=
    match hook with
    | None => class_decode_hook (type_of self)
    | Some _ => ret hook
    end in
  _dataclass2ctypes fuel self padding hook.

(** [CDataMixIn.from_dict] *)
Definition from_dict (cls : nat) (src : gmap string pyval) : M pyval :=
  instantiate (t_dataclass cls) src.

Section Buffers.
(** The class methods [from_buffer] and [from_buffer_copy] of a ctypes
    structure class, which map a byte buffer and an offset to an instance
    (or raise).  The layout of the bytes is the business of ctypes. *)
Variable ctypes_from_buffer : struct_class → list byte → Z → result cdata.
Variable ctypes_from_buffer_copy : struct_class → list byte → Z → result cdata.

(** [CDataMixIn.from_buffer] *)
Definition from_buffer (fuel : nat) (cls : nat) (buffer : list byte)
    (offset : Z) (padding : bool) (hook : option hook) : M pyval :=
  let* c := ctype_method (t_dataclass cls) in
  let* structure := lift (ctypes_from_buffer c buffer offset) in
  from_ctype fuel cls (PC structure) padding hook.

(** [CDataMixIn.from_buffer_copy] *)
Definition from_buffer_copy (fuel : nat) (cls : nat) (buffer : list byte)
    (offset : Z) (padding : bool) (hook : option hook) : M pyval :=
  let* c := ctype_method (t_dataclass cls) in
  let* structure := lift (ctypes_from_buffer_copy c buffer offset) in
  from_ctype fuel cls (PC structure) padding hook.
End Buffers.

(** ** Examples *)

Definition bytes_of (s : string) : list byte := String.list_byte_of_string s.

(** An interpreter in which the classes [cs] have been defined, with
    identities [0], [1], ... *)
Definition initial (cs : list dataclass) : state :=
  {| next_id := length cs;
     classes := list_to_map (imap (λ i c, (i, c)) cs);
     ctypes_cache := ∅;
     dataclass_cache := ∅;
     _STRUCTURE_DATACLASS_MAP := ∅;
     hook_mem := PNone;
     hook_calls := [] |}.

(** The class [Item] of [tests/test_core.py]:
    [number: int = field(metadata=metadata(c_uint32))],
    [string: str = field(metadata=metadata(c_char * 10))],
    with [_cdata_base_ = BigEndianStructure] and [_cdata_pack_ = 1]. *)
Definition Item : dataclass :=
  {| dc_name := "Item";
     dc_fields := [Field "number" (Some c_uint32) None;
                   Field "string" (Some (c_array c_char 10)) None];
     dc_cdata_base := Some BigEndianStructure;
     dc_cdata_pack := Some 1%Z;
     dc_decode_hook := None;
     dc_encode_hook := None |}.

(** The same class with defaults [number = 0] and [string = b""]. *)
Definition ItemD : dataclass :=
  {| dc_name := "Item";
     dc_fields := [Field "number" (Some c_uint32) (Some (PInt 0));
                   Field "string" (Some (c_array c_char 10)) (Some (PBytes []))];
     dc_cdata_base := Some BigEndianStructure;
     dc_cdata_pack := Some 1%Z;
     dc_decode_hook := None;
     dc_encode_hook := None |}.

Definition item (number : Z) (s : list byte) : pyval :=
  PData 0 (<["number" := PInt number]> (<["string" := PBytes s]> ∅)).

Definition outcome {A} (r : result A * state) : result A := r.1.

(** The descriptor that [Item.ctype()] generates in [initial [Item]] (and
    [ItemD.ctype()] in [initial [ItemD]]): the class takes the first free
    identity. *)
Definition Item_ctype (id : nat) : struct_class :=
  StructClass id "_ctypes_generated_from_Item" BigEndianStructure (Some 1%Z)
    [("number", c_uint32); ("string", c_array c_char 10)].

(** ** Vocabulary of the properties *)

(** The state after hook calls: the hook memory is [mem] and [calls] have
    been appended to the trace. *)
Definition hooked (st : state) (mem : pyval) (calls : list hook_call) : state :=
  {| next_id := next_id st;
     classes := classes st;
     ctypes_cache := ctypes_cache st;
     dataclass_cache := dataclass_cache st;
     _STRUCTURE_DATACLASS_MAP := _STRUCTURE_DATACLASS_MAP st;
     hook_mem := mem;
     hook_calls := hook_calls st ++ calls |}.

(** A hook with a counter: the [n]-th call returns [10 + n] (counting from
    zero), so the first and the second call differ. *)
Definition counting_hook : hook :=
  λ _ _ _ _ mem,
    match mem with
    | PInt n => (PInt (10 + n), PInt (n + 1))
    | _ => (PInt 10, PInt 1)
    end.

(** A hook without state that answers [PInt z] for the field [name] and
    [None] for every other field. *)
Definition const_hook (name : string) (z : Z) : hook :=
  λ cname _ _ _ mem, (if decide (cname = name) then PInt z else PNone, mem).


(** [ItemD] with a class-level [_encode_hook] and no [_decode_hook]. *)
Definition ItemE : dataclass :=
  {| dc_name := "Item";
     dc_fields := dc_fields ItemD;
     dc_cdata_base := Some BigEndianStructure;
     dc_cdata_pack := Some 1%Z;
     dc_decode_hook := None;
     dc_encode_hook := Some (const_hook "number" 7) |}.

(** [ItemD] with a class-level [_decode_hook] and no [_encode_hook]. *)
Definition ItemH : dataclass :=
  {| dc_name := "Item";
     dc_fields := dc_fields ItemD;
     dc_cdata_base := Some BigEndianStructure;
     dc_cdata_pack := Some 1%Z;
     dc_decode_hook := Some (const_hook "number" 7);
     dc_encode_hook := None |}.

(** [Outer] has one field [inner: ItemD], declared with
    [metadata(ItemD.ctype())] and the default [ItemD(0, b"")]; evaluating
    the class body has called [ItemD.ctype()], which generated the
    descriptor with identity [2]. *)
Definition Outer : dataclass :=
  {| dc_name := "Outer";
     dc_fields := [Field "inner" (Some (c_struct (Item_ctype 2)))
                     (Some (item 0 []))];
     dc_cdata_base := Some BigEndianStructure;
     dc_cdata_pack := Some 1%Z;
     dc_decode_hook := None;
     dc_encode_hook := None |}.

Definition with_Outer : state :=
  (ctype_method (t_dataclass 0) (initial [ItemD; Outer])).2.

(** [Samples] has one field [values] of type [c_uint16 * 3] with the
    default [None]. *)
Definition Samples : dataclass :=
  {| dc_name := "Samples";
     dc_fields := [Field "values" (Some (c_array c_uint16 3)) (Some PNone)];
     dc_cdata_base := Some Structure;
     dc_cdata_pack := Some 1%Z;
     dc_decode_hook := None;
     dc_encode_hook := None |}.

Definition Samples_ctype (id : nat) : struct_class :=
  StructClass id "_ctypes_generated_from_Samples" Structure (Some 1%Z)
    [("values", c_array c_uint16 3)].

(** Reading a field of the result of a conversion. *)
Definition attr (name : string) (v : pyval) : option pyval :=
  match v with
  | PData _ attrs => attrs !! name
  | PC (CStruct s fs) =>
      match struct_getattr v name with inr x => Some x | inl _ => None end
  | _ => None
  end.

Definition attr_of (name : string) (r : result pyval) : result (option pyval) :=
  match r with
  | inr v => Ok (attr name v)
  | inl e => Raise e
  end.

(** [Flags] has one field [ready] of type [c_bool] with the default
    [False]. *)
Definition Flags : dataclass :=
  {| dc_name := "Flags";
     dc_fields := [Field "ready" (Some c_bool) (Some (PBool false))];
     dc_cdata_base := Some Structure;
     dc_cdata_pack := Some 1%Z;
     dc_decode_hook := None;
     dc_encode_hook := None |}.



(** Calls of the two generators, and the state they leave behind. *)
Inductive gen_call :=
| CreateCtypes (datacls : nat) (base : cbase) (pack : Z)
| CreateDataclass (structure : struct_class).

Definition run_call (c : gen_call) (st : state) : state :=
  match c with
  | CreateCtypes datacls base pack => (_create_ctypes_class datacls base pack st).2
  | CreateDataclass structure => (_create_dataclass structure st).2
  end.








(** The [_fields_] list that [_create_ctypes_class] builds for a
    dataclass. *)
Definition descriptor_fields (dc : dataclass) : option (list (string * ctype)) :=
  mapM (λ f, t ← f_ctype f; Some (f_name f, t)) (dc_fields dc).




(** Between [st] and [st'] class objects were only added: identities are
    handed out in increasing order and the classes that existed in [st]
    are unchanged. *)
Definition stable (st st' : state) : Prop :=
  next_id st ≤ next_id st' ∧
  ∀ id, id < next_id st → classes st' !! id = classes st !! id.

(** A computation that only adds class objects. *)
Definition preserves {A} (m : M A) : Prop :=
  ∀ st r st', m st = (r, st') → stable st st'.

(** The value a run returned ([None] if it raised). *)
Definition value_of (run : result pyval * state) : pyval :=
  match run.1 with
  | inr v => v
  | inl _ => PNone
  end.


(** ** Vocabulary of the further properties *)

(** From [st] to [st'] the interpreter only gained: class objects were only
    added, and neither cache lost or changed an entry. *)
Definition grows (st st' : state) : Prop :=
  stable st st' ∧
  ctypes_cache st ⊆ ctypes_cache st' ∧
  dataclass_cache st ⊆ dataclass_cache st'.

Definition monotone {A} (m : M A) : Prop :=
  ∀ st r st', m st = (r, st') → grows st st'.

(** Calls of the module from outside: the methods of [CDataMixIn] and the
    two generators.  [from_buffer] and [from_buffer_copy] come with the
    reader that ctypes provides. *)
Inductive api_call :=
| CallCtype (cls : nat)
| CallFromCtype (fuel cls : nat) (structure : pyval) (padding : bool)
    (hook : option hook)
| CallToCtype (fuel : nat) (self : pyval) (padding : bool) (hook : option hook)
| CallFromDict (cls : nat) (src : gmap string pyval)
| CallFromBuffer (reader : struct_class → list byte → Z → result cdata)
    (fuel cls : nat) (buffer : list byte) (offset : Z) (padding : bool)
    (hook : option hook)
| CallFromBufferCopy (reader : struct_class → list byte → Z → result cdata)
    (fuel cls : nat) (buffer : list byte) (offset : Z) (padding : bool)
    (hook : option hook)
| CallGenerator (c : gen_call).

Definition run_api (c : api_call) (st : state) : state :=
  match c with
  | CallCtype cls => (ctype_method (t_dataclass cls) st).2
  | CallFromCtype fuel cls structure padding hook =>
      (from_ctype fuel cls structure padding hook st).2
  | CallToCtype fuel self padding hook => (to_ctype fuel self padding hook st).2
  | CallFromDict cls src => (from_dict cls src st).2
  | CallFromBuffer reader fuel cls buffer offset padding hook =>
      (from_buffer reader fuel cls buffer offset padding hook st).2
  | CallFromBufferCopy reader fuel cls buffer offset padding hook =>
      (from_buffer_copy reader fuel cls buffer offset padding hook st).2
  | CallGenerator c => run_call c st
  end.

Definition run_apis (cs : list api_call) (st : state) : state :=
  foldl (λ st c, run_api c st) st cs.

(** A computation that keeps the state invariant [I]. *)
Definition keeps (I : state → Prop) {A} (m : M A) : Prop :=
  ∀ st r st', I st → m st = (r, st') → I st'.

(** The state in which one more object identity has been handed out (a
    class object was created and dropped). *)
Definition one_id_used (st : state) : state :=
  {| next_id := S (next_id st);
     classes := classes st;
     ctypes_cache := ctypes_cache st;
     dataclass_cache := dataclass_cache st;
     _STRUCTURE_DATACLASS_MAP := _STRUCTURE_DATACLASS_MAP st;
     hook_mem := hook_mem st;
     hook_calls := hook_calls st |}.

(** A well-formed interpreter state:
    - the class objects and the cached descriptors have identities that
      were handed out, and no two of them share one;
    - a descriptor cached for [(d, base, pack)] is the one generated from
      the dataclass [d]: it has that base and pack, is named after [d], and
      its [_fields_] are the names and binary types of the fields of [d];
    - [_STRUCTURE_DATACLASS_MAP] and the cache of [_create_dataclass] hold
      existing dataclasses. *)
Record well_formed (st : state) : Prop := {
  wf_classes : ∀ id, is_Some (classes st !! id) → id < next_id st;
  wf_descriptor_ids : ∀ k sc,
    ctypes_cache st !! k = Some sc →
    sid sc < next_id st ∧ classes st !! sid sc = None;
  wf_descriptors_distinct : ∀ k k' sc sc',
    ctypes_cache st !! k = Some sc → ctypes_cache st !! k' = Some sc' →
    sid sc = sid sc' → k = k';
  wf_descriptors : ∀ d b p sc,
    ctypes_cache st !! (d, b, p) = Some sc →
    sbase sc = b ∧ spack sc = Some p ∧
    ∃ dc, classes st !! d = Some dc ∧
          sname sc = "_ctypes_generated_from_" +:+ dc_name dc ∧
          descriptor_fields dc = Some (sfields sc);
  wf_map : ∀ name d,
    _STRUCTURE_DATACLASS_MAP st !! name = Some d → is_Some (classes st !! d);
  wf_dataclass_cache : ∀ k d,
    dataclass_cache st !! k = Some d → is_Some (classes st !! d);
}.

(** The classes at the end of [core.py].  Each sets [_cdata_endian] and
    [_cdata_pack], attributes that no function of the module reads; the
    attributes [_cdata_base_] and [_cdata_pack_], which [CDataMixIn] declares
    without a value, stay unset, and the hooks keep their default [None]. *)
Definition mixin (name : string) : dataclass :=
  {| dc_name := name;
     dc_fields := [];
     dc_cdata_base := None;
     dc_cdata_pack := None;
     dc_decode_hook := None;
     dc_encode_hook := None |}.

Definition NativeEndianStructureMixIn := mixin "NativeEndianStructureMixIn".
Definition LittleEndianStructureMixIn := mixin "LittleEndianStructureMixIn".
Definition BigEndianStructureMixIn := mixin "BigEndianStructureMixIn".
Definition UnionMixIn := mixin "UnionMixIn".

(** A dataclass declared with [parent] as its base class and [fields] in
    its body, which sets none of the class attributes itself: it inherits
    them from [parent]. *)
Definition subclass (parent : dataclass) (name : string) (fields : list field)
  : dataclass :=
  {| dc_name := name;
     dc_fields := dc_fields parent ++ fields;
     dc_cdata_base := dc_cdata_base parent;
     dc_cdata_pack := dc_cdata_pack parent;
     dc_decode_hook := dc_decode_hook parent;
     dc_encode_hook := dc_encode_hook parent |}.


(** The class [dc] has no class attribute [cname]: it has no field of that
    name with a default value. *)
Definition lacks_default (dc : dataclass) (cname : string) : Prop :=
  ∀ f, f ∈ dc_fields dc → f_name f = cname → f_default f = None.

(** A buffer reader that returns instances of the class it is called on. *)
Definition returns_instances
    (reader : struct_class → list byte → Z → result cdata) : Prop :=
  ∀ c buffer offset s,
    reader c buffer offset = Ok s → ∃ fs, s = CStruct c fs.

(** The dataclass that [_create_dataclass] makes for a structure class that
    no dataclass is recorded for. *)
Definition generated_dataclass (structure : struct_class) (pack : Z) : dataclass :=
  {| dc_name := "_dataclass_generated_from_" +:+ sname structure;
     dc_fields := (λ p, Field p.1 None None) <$> sfields structure;
     dc_cdata_base := Some (StructureSubclass (sid structure));
     dc_cdata_pack := Some pack;
     dc_decode_hook := None;
     dc_encode_hook := None |}.

(** The range of an integer type of [bits] bits. *)
Definition in_range (signed : bool) (bits z : Z) : Prop :=
  if signed then (- 2 ^ (bits - 1) ≤ z < 2 ^ (bits - 1))%Z
  else (0 ≤ z < 2 ^ bits)%Z.

(** The content [c] is that of a slot of type [t]: a number within the
    range of an integer type, a boolean, a character, or an instance of the
    array or structure type. *)
Definition shaped (t : ctype) (c : cdata) : Prop :=
  match t with
  | c_int s w => ∃ z, c = CInt z ∧ ((0 < w)%Z → in_range s w z)
  | c_bool => ∃ b, c = CBool b
  | c_char => ∃ b, c = CChar b
  | c_array _ _ | c_struct _ => isinstance c t = true
  end.

(** The content [fs] is that of an instance of the structure class [sc]:
    one slot for each field, and nothing else. *)
Definition instance_shape (sc : struct_class) (fs : gmap string cdata) : Prop :=
  (∀ k, is_Some (fs !! k) → k ∈ (sfields sc).*1) ∧
  ∀ name t, assoc name (sfields sc) = Some t →
            ∃ c, fs !! name = Some c ∧ shaped t c.



(** Two states that differ at most in what hooks did: in the hook memory
    and in the trace of the hook calls. *)
Definition same_objects (st1 st2 : state) : Prop :=
  next_id st1 = next_id st2 ∧ classes st1 = classes st2 ∧
  ctypes_cache st1 = ctypes_cache st2 ∧
  dataclass_cache st1 = dataclass_cache st2 ∧
  _STRUCTURE_DATACLASS_MAP st1 = _STRUCTURE_DATACLASS_MAP st2.

(** Two computations with the same outcome and the same effect on classes,
    caches and the name map. *)
Definition alike {A} (m1 m2 : M A) : Prop :=
  ∀ st1 st2, same_objects st1 st2 →
             (m1 st1).1 = (m2 st2).1 ∧ same_objects (m1 st1).2 (m2 st2).2.

(** A hook that answers [None] for every field, whatever its memory. *)
Definition declines (h : hook) : Prop :=
  ∀ cname ct cvalue dv mem, (h cname ct cvalue dv mem).1 = PNone.

(** A hook that declines and counts its calls. *)
Definition idle_hook : hook :=
  λ _ _ _ _ mem,
    (PNone, match mem with PInt n => PInt (n + 1) | _ => PInt 1 end).

(** A slot of a scalar type in the form the setters leave it in: an integer
    within the range of its type, a boolean, a character, or a character
    array holding NUL-free bytes followed by NULs. *)
Definition plain (t : ctype) (c : cdata) : Prop :=
  match t with
  | c_int s w => ∃ z, c = CInt z ∧ (0 < w)%Z ∧ in_range s w z
  | c_bool => ∃ b, c = CBool b
  | c_char => ∃ b, c = CChar b
  | c_array c_char n =>
      ∃ bs : list byte,
        (x00 ∉ bs) ∧ length bs ≤ n ∧
        c = CArray c_char
              ((CChar <$> bs) ++ replicate (n - length bs) (CChar x00))
  | _ => False
  end.


(** * Properties *)

(** ** The monad *)

Lemma bind_ext {A B} (m : M A) (k k' : A → M B) st :
  (∀ a st', k a st' = k' a st') → bind m k st = bind m k' st.
Proof. intros H. unfold bind. destruct (m st) as [[e|a] st']; auto. Qed.

Lemma bind_cong {A B} (m m' : M A) (k k' : A → M B) st :
  m st = m' st → (∀ a st', k a st' = k' a st') → bind m k st = bind m' k' st.
Proof. intros Hm H. unfold bind. rewrite Hm. destruct (m' st) as [[e|a] st']; auto. Qed.

Lemma forM_ext {A B} (f g : A → M B) l :
  (∀ a st, f a st = g a st) → ∀ st, forM f l st = forM g l st.
Proof.
  intros H. induction l as [|a l IH]; intros st; [done|].
  simpl. apply bind_cong; [done|]. intros b st'.
  apply bind_cong; [apply IH|done].
Qed.

Lemma foldM_ext {A B} (f g : A → B → M A) l :
  (∀ a b st, f a b st = g a b st) → ∀ a st, foldM f a l st = foldM g a l st.
Proof.
  intros H. induction l as [|b l IH]; intros a st; [done|].
  simpl. unfold bind. rewrite H.
  destruct (g a b st) as [[e|a'] st']; [done|]. apply IH.
Qed.

Lemma bind_Ok {A B} (m : M A) (k : A → M B) st a st' :
  m st = (Ok a, st') → bind m k st = k a st'.
Proof. intros H. unfold bind. by rewrite H. Qed.

Lemma bind_Raise {A B} (m : M A) (k : A → M B) st e st' :
  m st = (Raise e, st') → bind m k st = (Raise e, st').
Proof. intros H. unfold bind. by rewrite H. Qed.

(** Inversion of a successful [bind]. *)
Lemma bind_inv {A B} (m : M A) (k : A → M B) st b st2 :
  bind m k st = (Ok b, st2) →
  ∃ a st1, m st = (Ok a, st1) ∧ k a st1 = (Ok b, st2).
Proof.
  unfold bind. destruct (m st) as [[e|a] st1]; [done|]. eauto.
Qed.

Ltac bind_step := apply bind_ext; intros.

(** ** The [padding] argument *)

Lemma decode_field_padding rec rec' datacls structure p p' hook d cname ct :
  (∀ t s h st, rec t s p h st = rec' t s p' h st) →
  ∀ st, decode_field rec datacls structure p hook d cname ct st
        = decode_field rec' datacls structure p' hook d cname ct st.
Proof.
  intros Hrec st. unfold decode_field.
  bind_step. bind_step. bind_step.
  destruct a1; [done|].
  apply bind_cong; [|done].
  destruct (_ && _); [done|].
  destruct (has_length_and_type a).
  - bind_step. destruct (array_type a) as [[]|]; try done.
    apply bind_cong; [|done].
    apply forM_ext. intros. bind_step. apply Hrec.
  - destruct (has_fields a); [|done].
    apply bind_cong; [apply Hrec|done].
Qed.

Lemma _ctypes2dataclass_padding fuel p p' :
  ∀ datacls structure hook st,
    _ctypes2dataclass fuel datacls structure p hook st
    = _ctypes2dataclass fuel datacls structure p' hook st.
Proof.
  induction fuel as [|fuel IH]; intros; [done|].
  simpl. apply bind_cong; [|done].
  apply foldM_ext. intros. by apply decode_field_padding.
Qed.

Lemma encode_field_padding rec rec' inst p p' hook structure cname ct :
  (∀ v h st, rec v p h st = rec' v p' h st) →
  ∀ st, encode_field rec inst p hook structure cname ct st
        = encode_field rec' inst p' hook structure cname ct st.
Proof.
  intros Hrec st. unfold encode_field.
  bind_step. bind_step. bind_step.
  destruct a1; [done|].
  apply bind_cong; [|done].
  destruct (has_length_and_type a).
  - bind_step. destruct (array_type a) as [[]|]; try done.
    apply bind_cong; [|done].
    apply forM_ext. intros. apply Hrec.
  - destruct (has_fields a); [|done].
    apply bind_cong; [apply Hrec|done].
Qed.

Lemma _dataclass2ctypes_padding fuel p p' :
  ∀ inst hook st,
    _dataclass2ctypes fuel inst p hook st = _dataclass2ctypes fuel inst p' hook st.
Proof.
  induction fuel as [|fuel IH]; intros; [done|].
  simpl. bind_step. apply bind_cong; [|done].
  apply foldM_ext. intros. by apply encode_field_padding.
Qed.

(** C9. The [padding] argument that [from_buffer], [from_buffer_copy],
    [from_ctype], [to_ctype], [_ctypes2dataclass] and [_dataclass2ctypes]
    pass along is never looked at: a conversion run with [padding=True] and
    the same conversion run with [padding=False] give the same result (value
    or exception) and leave the interpreter in the same state. *)
Theorem padding_has_no_effect :
  (∀ fuel datacls structure hook st,
     _ctypes2dataclass fuel datacls structure true hook st
     = _ctypes2dataclass fuel datacls structure false hook st) ∧
  (∀ fuel inst hook st,
     _dataclass2ctypes fuel inst true hook st
     = _dataclass2ctypes fuel inst false hook st) ∧
  (∀ fuel cls structure hook st,
     from_ctype fuel cls structure true hook st
     = from_ctype fuel cls structure false hook st) ∧
  (∀ fuel self hook st,
     to_ctype fuel self true hook st = to_ctype fuel self false hook st) ∧
  (∀ fb fuel cls buffer offset hook st,
     from_buffer fb fuel cls buffer offset true hook st
     = from_buffer fb fuel cls buffer offset false hook st) ∧
  (∀ fb fuel cls buffer offset hook st,
     from_buffer_copy fb fuel cls buffer offset true hook st
     = from_buffer_copy fb fuel cls buffer offset false hook st).
Proof.
  assert (Hfrom : ∀ fuel cls structure hook st,
     from_ctype fuel cls structure true hook st
     = from_ctype fuel cls structure false hook st).
  { intros. unfold from_ctype. bind_step. apply _ctypes2dataclass_padding. }
  repeat split; intros.
  - apply _ctypes2dataclass_padding.
  - apply _dataclass2ctypes_padding.
  - apply Hfrom.
  - unfold to_ctype. bind_step. apply _dataclass2ctypes_padding.
  - unfold from_buffer. bind_step. bind_step. apply Hfrom.
  - unfold from_buffer_copy. bind_step. bind_step. apply Hfrom.
Qed.

(** ** The hook protocol *)


Lemma consult_defers h cname ct cvalue dv st m1 :
  h cname ct cvalue dv (hook_mem st) = (PNone, m1) →
  consult (Some h) cname ct cvalue dv st
  = (Ok None, hooked st m1 [HookCall cname ct cvalue dv]).
Proof. intros H1. unfold consult, bind, call_hook. by rewrite H1. Qed.

Lemma consult_no_hook cname ct cvalue dv st :
  consult None cname ct cvalue dv st = (Ok None, st).
Proof. done. Qed.



(** C8 (the code does otherwise). [to_ctype] called without a hook falls back
    on the class attribute [_decode_hook], not on [_encode_hook].  A class
    whose [_encode_hook] answers [7] for [number] and whose [_decode_hook] is
    [None] encodes [number = 1] as [1], and the hook is never called; the
    same hook installed as [_decode_hook] is the one that is applied when
    encoding. *)
Theorem to_ctype_falls_back_on_decode_hook :
  let v := item 1 (bytes_of "abcde") in
  dc_encode_hook ItemE = Some (const_hook "number" 7) ∧
  attr_of "number" (outcome (to_ctype 5 v true None (initial [ItemE])))
    = Ok (Some (PInt 1)) ∧
  hook_calls (to_ctype 5 v true None (initial [ItemE])).2 = [] ∧
  dc_encode_hook ItemH = None ∧
  attr_of "number" (outcome (to_ctype 5 v true None (initial [ItemH])))
    = Ok (Some (PInt 7)).
Proof. repeat split; vm_compute; reflexivity. Qed.

Lemma to_ctype_hook_fallback fuel self padding st :
  to_ctype fuel self padding None st
  = (let* hook := class_decode_hook (type_of self) in
     _dataclass2ctypes fuel self padding hook) st.
Proof. done. Qed.

(** ** The default assignment that ends the loop body *)

Lemma lift_inv {A} (r : result A) st a st' :
  lift r st = (Ok a, st') → r = Ok a ∧ st' = st.
Proof. unfold lift. by intros [= -> ->]. Qed.

Lemma ret_inv {A} (x : A) st a st' :
  ret x st = (Ok a, st') → a = x ∧ st' = st.
Proof. unfold ret. by intros [= -> ->]. Qed.

(** Whatever branch ran before it, a step of the decoder in which no hook
    answered ends with [d[cname] = cvalue]. *)
Lemma decode_field_default rec datacls bin padding d cname ct st d' st' :
  decode_field rec datacls bin padding None d cname ct st = (Ok d', st') →
  ∃ cvalue, struct_getattr bin cname = Ok cvalue ∧
            d' !! cname = Some cvalue ∧
            ∀ k, k ≠ cname → d' !! k = d !! k.
Proof.
  unfold decode_field. intros H.
  apply bind_inv in H as (cvalue & st1 & Hc & H). apply lift_inv in Hc as [Hc ->].
  apply bind_inv in H as (dv & st2 & Hd & H).
  rewrite (bind_Ok _ _ _ _ _ (consult_no_hook _ _ _ _ _)) in H.
  apply bind_inv in H as (d1 & st3 & Hb & H). apply ret_inv in H as [-> ->].
  exists cvalue. split; [done|]. split; [by rewrite lookup_insert_eq|].
  intros k Hk. rewrite lookup_insert_ne; [|done].
  destruct (_ && _).
  { apply ret_inv in Hb as [-> _]. by rewrite lookup_insert_ne. }
  destruct (has_length_and_type cvalue).
  { apply bind_inv in Hb as (es & st4 & _ & Hb).
    destruct (array_type cvalue) as [[]|];
      try (apply ret_inv in Hb as [-> _]; by rewrite lookup_insert_ne).
    apply bind_inv in Hb as (l & st5 & _ & Hb).
    apply ret_inv in Hb as [-> _]. by rewrite lookup_insert_ne. }
  destruct (has_fields cvalue).
  { apply bind_inv in Hb as (v & st4 & _ & Hb).
    apply ret_inv in Hb as [-> _]. by rewrite lookup_insert_ne. }
  by apply ret_inv in Hb as [-> _].
Qed.

(** C1 (the code does otherwise). The result of the branch that applies is
    not kept: the assignment under [# By default] runs after every branch
    except the hook's.  Decoding the all-zero [Item] structure leaves
    [string = b""] where the null-sentinel branch had stored [None];
    decoding a [c_uint16 * 3] field leaves the ctypes array where the array
    branch had stored a list; encoding an instance with a nested dataclass
    raises [TypeError], because after the nested structure has been written
    the dataclass instance itself is assigned to the structure field. *)
Theorem default_assignment_overwrites_branch :
  attr_of "string"
    (outcome (from_ctype 5 0 (PC (zero_of (c_struct (Item_ctype 1)))) true None
                (initial [ItemD])))
  = Ok (Some (PBytes [])) ∧
  attr_of "values"
    (outcome (from_ctype 5 0 (PC (zero_of (c_struct (Samples_ctype 1)))) true
                None (initial [Samples])))
  = Ok (Some (PC (CArray c_uint16 [CInt 0; CInt 0; CInt 0]))) ∧
  outcome (to_ctype 5 (PData 1 {["inner" := item 1 (bytes_of "ab")]}) true None
             with_Outer)
  = Raise TypeError.
Proof. repeat split; vm_compute; reflexivity. Qed.

(** ** [from_dict] *)




(** ** Steps of the encoder *)

Lemma class_getattr_state datacls cname st r st' :
  class_getattr datacls cname st = (r, st') → st' = st.
Proof.
  destruct datacls; cbv [class_getattr bind get_class get raise ret];
    try by intros [= _ <-].
  destruct (classes st !! cls); simpl; [|by intros [= _ <-]].
  destruct (list_find _ _) as [[? f]|]; [|by intros [= _ <-]].
  destruct (f_default f); by intros [= _ <-].
Qed.

Lemma instance_getattr_state inst cname st r st' :
  instance_getattr inst cname st = (r, st') → st' = st.
Proof.
  unfold instance_getattr, raise, ret. destruct inst; try by intros [= _ <-].
  destruct (attrs !! cname); [by intros [= _ <-]|]. apply class_getattr_state.
Qed.

Lemma assoc_Some_elem {A} k (l : list (string * A)) a :
  assoc k l = Some a → (k, a) ∈ l.
Proof.
  induction l as [|[k' a'] l IH]; [done|]. simpl.
  destruct (assoc k l) as [b|].
  - intros [= ->]. apply elem_of_cons. right. by apply IH.
  - case_decide; [|done]. intros [= ->]. subst. apply elem_of_cons. by left.
Qed.

Lemma assoc_None_not_elem {A} k (l : list (string * A)) :
  assoc k l = None → k ∉ l.*1.
Proof.
  induction l as [|[k' a'] l IH]; simpl; [intros _; apply not_elem_of_nil|].
  destruct (assoc k l); [done|]. case_decide; [done|]. intros _.
  apply not_elem_of_cons. split; [done|]. by apply IH.
Qed.





(** ** Encoding [None] *)


Lemma _dataclass2ctypes_inv fuel inst padding hook st v st' :
  _dataclass2ctypes fuel inst padding hook st = (Ok v, st') →
  ∃ fuel' sc st1 s,
    fuel = S fuel' ∧ ctype_method (type_of inst) st = (Ok sc, st1) ∧
    foldM (λ structure f,
             encode_field (_dataclass2ctypes fuel') inst padding hook
               structure f.1 f.2)
      (zero_of (c_struct sc)) (sfields sc) st1 = (Ok s, st') ∧
    v = PC s.
Proof.
  destruct fuel as [|fuel']; [done|]. simpl. intros H.
  apply bind_inv in H as (sc & st1 & Hsc & H).
  apply bind_inv in H as (s & st2 & Hs & H). apply ret_inv in H as [-> ->].
  by exists fuel', sc, st1, s.
Qed.




(** A [c_bool] field holding [None] is encoded as [False]. *)
Example encode_None_c_bool :
  attr_of "ready"
    (outcome (to_ctype 5 (PData 0 {["ready" := PNone]}) true None (initial [Flags])))
  = Ok (Some (PBool false)).
Proof. vm_compute. reflexivity. Qed.

(** ** Steps of the decoder *)

Lemma decode_loop_default rec datacls bin padding cname l :
  ∀ d st d' st',
    foldM (λ d f, decode_field rec datacls bin padding None d f.1 f.2) d l st
    = (Ok d', st') →
    (cname ∉ l.*1 → d' !! cname = d !! cname) ∧
    (cname ∈ l.*1 →
     ∃ cvalue, struct_getattr bin cname = Ok cvalue ∧ d' !! cname = Some cvalue).
Proof.
  induction l as [|[n ct] l IH]; intros d st d' st' H.
  - apply ret_inv in H as [-> _]. split; [done|].
    intros Hin. by apply elem_of_nil in Hin.
  - simpl in H. apply bind_inv in H as (d1 & st1 & Hstep & H).
    apply decode_field_default in Hstep as (cvalue & Hc & Hd1 & Hother).
    apply IH in H as [Hout Hin]. split.
    + intros Hnot. apply not_elem_of_cons in Hnot as [Hne Hnot].
      rewrite Hout by done. by apply Hother.
    + intros Hcons. destruct (decide (cname ∈ l.*1)) as [Hl|Hl]; [by apply Hin|].
      apply elem_of_cons in Hcons as [->|Hcons]; [|done].
      exists cvalue. by rewrite Hout.
Qed.

Lemma _ctypes2dataclass_inv fuel datacls bin padding hook st v st' :
  _ctypes2dataclass fuel datacls bin padding hook st = (Ok v, st') →
  ∃ fuel' d st1,
    fuel = S fuel' ∧
    foldM (λ d f, decode_field (_ctypes2dataclass fuel') datacls bin padding
                    hook d f.1 f.2) ∅ (fields_of bin) st = (Ok d, st1) ∧
    instantiate datacls d st1 = (Ok v, st').
Proof.
  destruct fuel as [|fuel']; [done|]. simpl. intros H.
  apply bind_inv in H as (d & st1 & Hd & H). by exists fuel', d, st1.
Qed.

Lemma bind_fields_lookup fs (d attrs : gmap string pyval) k x :
  bind_fields fs d = Some attrs → k ∈ f_name <$> fs → d !! k = Some x →
  attrs !! k = Some x.
Proof.
  revert attrs. induction fs as [|f fs IH]; intros attrs H Hin Hk.
  - by apply elem_of_nil in Hin.
  - simpl in H.
    destruct (from_option Some (f_default f) (d !! f_name f)) as [v|] eqn:Ev;
      [|done]. simpl in H.
    destruct (bind_fields fs d) as [attrs'|]; [|done]. injection H as <-.
    destruct (decide (k = f_name f)) as [->|Hne].
    + rewrite Hk in Ev. simpl in Ev. injection Ev as <-.
      by rewrite lookup_insert_eq.
    + rewrite lookup_insert_ne by done. apply IH; [done| |done].
      simpl in Hin. apply elem_of_cons in Hin as [?|?]; done.
Qed.

(** The instance built from the dictionary [d] has every entry of [d] as an
    attribute. *)
Lemma instantiate_attr datacls (d : gmap string pyval) st v st' k x :
  instantiate datacls d st = (Ok v, st') → d !! k = Some x →
  attr k v = Some x.
Proof.
  intros H Hk.
  assert (Hne : d ≠ ∅) by (intros ->; by rewrite lookup_empty in Hk).
  destruct datacls; simpl in H;
    try (rewrite bool_decide_eq_false_2 in H by done; done).
  apply bind_inv in H as (dc & st1 & _ & H). apply lift_inv in H as [H _].
  unfold dataclass_init in H. case_bool_decide as Hall; [|done].
  destruct (bind_fields _ _) as [attrs|] eqn:Eb; [|done]. injection H as <-.
  simpl. eapply bind_fields_lookup; [done| |done]. by apply (Hall k x).
Qed.

(** ** Fixed-length arrays *)













(** ** The descriptor generator *)

Lemma _create_ctypes_class_hit d b p st sc :
  ctypes_cache st !! (d, b, p) = Some sc →
  _create_ctypes_class d b p st = (Ok sc, st).
Proof. intros H. cbv [_create_ctypes_class bind get]. by rewrite H. Qed.

(** What a call that is not in the cache does. *)
Lemma _create_ctypes_class_miss d b p st r st' :
  ctypes_cache st !! (d, b, p) = None →
  _create_ctypes_class d b p st = (r, st') →
  dataclass_cache st' = dataclass_cache st ∧ classes st' = classes st ∧
  ((∃ e, r = Raise e ∧ ctypes_cache st' = ctypes_cache st ∧
         _STRUCTURE_DATACLASS_MAP st' = _STRUCTURE_DATACLASS_MAP st)
   ∨ (∃ dc flds,
        classes st !! d = Some dc ∧
        r = Ok (StructClass (next_id st)
                  ("_ctypes_generated_from_" +:+ dc_name dc) b (Some p) flds) ∧
        ctypes_cache st'
        = <[(d, b, p) := StructClass (next_id st)
                  ("_ctypes_generated_from_" +:+ dc_name dc) b (Some p) flds]>
            (ctypes_cache st) ∧
        _STRUCTURE_DATACLASS_MAP st'
        = <["_ctypes_generated_from_" +:+ dc_name dc := d]>
            (_STRUCTURE_DATACLASS_MAP st))).
Proof.
  intros Hmiss. cbv [_create_ctypes_class bind get get_class]. rewrite Hmiss.
  destruct (classes st !! d) as [dc|] eqn:Ed; simpl.
  2:{ intros [= <- <-]. repeat split; try done. left. by eexists. }
  case_bool_decide.
  2:{ intros [= <- <-]. repeat split; try done. left. by eexists. }
  destruct (mapM _ _) as [flds|]; simpl.
  2:{ intros [= <- <-]. repeat split; try done. left. by eexists. }
  intros [= <- <-]. repeat split; try done. right. by exists dc, flds.
Qed.

Lemma _create_dataclass_hit s st d :
  dataclass_cache st !! sid s = Some d →
  _create_dataclass s st = (Ok d, st).
Proof. intros H. cbv [_create_dataclass bind get]. by rewrite H. Qed.


(** [_create_dataclass] never writes [_STRUCTURE_DATACLASS_MAP] or the cache
    of [_create_ctypes_class], and touches its own cache at most at the
    identity of its argument. *)
Lemma _create_dataclass_frame s st :
  _STRUCTURE_DATACLASS_MAP (_create_dataclass s st).2 = _STRUCTURE_DATACLASS_MAP st ∧
  ctypes_cache (_create_dataclass s st).2 = ctypes_cache st ∧
  ∀ k, k ≠ sid s →
       dataclass_cache (_create_dataclass s st).2 !! k = dataclass_cache st !! k.
Proof.
  cbv [_create_dataclass bind get].
  destruct (dataclass_cache st !! sid s); [done|].
  destruct (_STRUCTURE_DATACLASS_MAP st !! sname s); simpl.
  { repeat split; try done. intros. by rewrite lookup_insert_ne. }
  destruct (spack s); simpl; [|done].
  repeat split; try done. intros. by rewrite lookup_insert_ne.
Qed.



Lemma _create_ctypes_class_cached d b p st sc st1 :
  _create_ctypes_class d b p st = (Ok sc, st1) →
  ctypes_cache st1 !! (d, b, p) = Some sc.
Proof.
  intros H. destruct (ctypes_cache st !! (d, b, p)) as [sc'|] eqn:E.
  - rewrite (_create_ctypes_class_hit _ _ _ _ _ E) in H. by injection H as <- <-.
  - apply (_create_ctypes_class_miss _ _ _ _ _ _ E) in H
      as (_ & _ & [(e & ? & _)|(dc & flds & _ & [= ->] & -> & _)]); [done|].
    by rewrite lookup_insert_eq.
Qed.







(** ** Round trip of a dataclass of scalars *)









Lemma zero_map_lookup (l : list (string * ctype)) n t :
  NoDup l.*1 → (n, t) ∈ l →
  (list_to_map (List.map (λ p, (p.1, zero_of p.2)) l) : gmap string cdata) !! n
  = Some (zero_of t).
Proof.
  induction l as [|[n' t'] l IH]; intros Hnd Hin; [by apply elem_of_nil in Hin|].
  simpl in *. apply NoDup_cons in Hnd as [Hn' Hnd].
  apply elem_of_cons in Hin as [[= -> ->]|Hin].
  - by rewrite lookup_insert_eq.
  - rewrite lookup_insert_ne; [by apply IH|].
    intros ->. apply Hn'. apply list_elem_of_fmap. by exists (n, t).
Qed.







(** The class of the test suite declares its fields without defaults, so the
    class has no attribute named like a field and decoding stops at
    [getattr(datacls, cname)]. *)
Example roundtrip_Item_raises :
  outcome ((let* s := to_ctype 5 (item 1 (bytes_of "abcde")) true None in
            from_ctype 5 0 s true None) (initial [Item]))
  = Raise AttributeError.
Proof. vm_compute. reflexivity. Qed.





(** ** The value of a hook in the result of a conversion *)







Lemma stable_refl st : stable st st.
Proof. by split. Qed.

Lemma stable_trans st1 st2 st3 : stable st1 st2 → stable st2 st3 → stable st1 st3.
Proof.
  intros [H1 H1'] [H2 H2']. split; [lia|].
  intros id Hid. rewrite H2' by lia. by apply H1'.
Qed.

Lemma preserves_ret {A} (a : A) : preserves (ret a).
Proof. intros st r st' [= _ <-]. apply stable_refl. Qed.

Lemma preserves_raise {A} e : preserves (raise e : M A).
Proof. intros st r st' [= _ <-]. apply stable_refl. Qed.

Lemma preserves_lift {A} (x : result A) : preserves (lift x).
Proof. intros st r st' [= _ <-]. apply stable_refl. Qed.

Lemma preserves_bind {A B} (m : M A) (k : A → M B) :
  preserves m → (∀ a, preserves (k a)) → preserves (bind m k).
Proof.
  intros Hm Hk st r st'. unfold bind.
  destruct (m st) as [[e|a] st1] eqn:E.
  - intros [= _ <-]. by eapply Hm.
  - intros H. eapply stable_trans; [by eapply Hm|by eapply Hk].
Qed.

Lemma preserves_forM {A B} (f : A → M B) l :
  (∀ a, preserves (f a)) → preserves (forM f l).
Proof.
  intros Hf. induction l as [|a l IH]; simpl; [apply preserves_ret|].
  apply preserves_bind; [done|]. intros b.
  apply preserves_bind; [done|]. intros bs. apply preserves_ret.
Qed.

Lemma preserves_foldM {A B} (f : A → B → M A) l :
  (∀ a b, preserves (f a b)) → ∀ a, preserves (foldM f a l).
Proof.
  intros Hf. induction l as [|b l IH]; intros a; simpl; [apply preserves_ret|].
  apply preserves_bind; [done|]. intros a'. apply IH.
Qed.

Lemma preserves_call_hook h cname ct cvalue dv :
  preserves (call_hook h cname ct cvalue dv).
Proof.
  intros st r st'. unfold call_hook. destruct (h _ _ _ _ _) as [x mem].
  intros [= _ <-]. by split.
Qed.

Lemma preserves_consult hook cname ct cvalue dv :
  preserves (consult hook cname ct cvalue dv).
Proof.
  destruct hook as [h|]; simpl; [|apply preserves_ret].
  apply preserves_bind; [apply preserves_call_hook|]. intros tested.
  destruct tested; try apply preserves_ret;
    (apply preserves_bind; [apply preserves_call_hook|]; intros; apply preserves_ret).
Qed.

Lemma preserves_class_getattr datacls cname :
  preserves (class_getattr datacls cname).
Proof.
  intros st r st' H. apply class_getattr_state in H as ->. apply stable_refl.
Qed.

Lemma preserves__create_dataclass s : preserves (_create_dataclass s).
Proof.
  intros st r st'. cbv [_create_dataclass bind get].
  destruct (dataclass_cache st !! sid s); [intros [= _ <-]; apply stable_refl|].
  destruct (_STRUCTURE_DATACLASS_MAP st !! sname s); simpl.
  { intros [= _ <-]. by split. }
  destruct (spack s); simpl; intros [= _ <-]; (split; simpl; [lia|]).
  - intros id Hid. rewrite lookup_insert_ne; [done|lia].
  - done.
Qed.

Lemma preserves_instantiate datacls d : preserves (instantiate datacls d).
Proof.
  intros st r st'. destruct datacls; simpl;
    try (case_bool_decide; intros [= _ <-]; apply stable_refl).
  cbv [bind get_class get lift raise ret].
  destruct (classes st !! cls); simpl; intros [= _ <-]; apply stable_refl.
Qed.

Lemma preserves_decode_field rec datacls bin padding hook d cname ct :
  (∀ t s p h, preserves (rec t s p h)) →
  preserves (decode_field rec datacls bin padding hook d cname ct).
Proof.
  intros Hrec. unfold decode_field.
  apply preserves_bind; [apply preserves_lift|]. intros cvalue.
  apply preserves_bind; [apply preserves_class_getattr|]. intros dv.
  apply preserves_bind; [apply preserves_consult|]. intros [v|];
    [apply preserves_ret|].
  apply preserves_bind; [|intros; apply preserves_ret].
  destruct (_ && _); [apply preserves_ret|].
  destruct (has_length_and_type cvalue).
  { apply preserves_bind; [apply preserves_lift|]. intros es.
    destruct (array_type cvalue) as [[]|]; try apply preserves_ret.
    apply preserves_bind; [|intros; apply preserves_ret].
    apply preserves_forM. intros e.
    apply preserves_bind; [apply preserves__create_dataclass|]. intros dc.
    apply Hrec. }
  destruct (has_fields cvalue); [|apply preserves_ret].
  apply preserves_bind; [apply Hrec|]. intros; apply preserves_ret.
Qed.

Lemma preserves__ctypes2dataclass fuel :
  ∀ datacls bin padding hook,
    preserves (_ctypes2dataclass fuel datacls bin padding hook).
Proof.
  induction fuel as [|fuel IH]; intros; simpl; [apply preserves_raise|].
  apply preserves_bind; [|intros; apply preserves_instantiate].
  apply preserves_foldM. intros. by apply preserves_decode_field.
Qed.







(** * Further properties of the module *)

(** ** The interpreter state only grows *)

Lemma grows_refl st : grows st st.
Proof. split; [apply stable_refl|done]. Qed.

Lemma grows_trans st1 st2 st3 : grows st1 st2 → grows st2 st3 → grows st1 st3.
Proof.
  intros (Hs & Hc & Hd) (Hs' & Hc' & Hd').
  split; [by eapply stable_trans|]. split; by etrans.
Qed.

Lemma monotone_ret {A} (a : A) : monotone (ret a).
Proof. intros st r st' [= _ <-]. apply grows_refl. Qed.

Lemma monotone_raise {A} e : monotone (raise e : M A).
Proof. intros st r st' [= _ <-]. apply grows_refl. Qed.

Lemma monotone_lift {A} (x : result A) : monotone (lift x).
Proof. intros st r st' [= _ <-]. apply grows_refl. Qed.

Lemma monotone_bind {A B} (m : M A) (k : A → M B) :
  monotone m → (∀ a, monotone (k a)) → monotone (bind m k).
Proof.
  intros Hm Hk st r st'. unfold bind.
  destruct (m st) as [[e|a] st1] eqn:E.
  - intros [= _ <-]. by eapply Hm.
  - intros H. eapply grows_trans; [by eapply Hm|by eapply Hk].
Qed.

Lemma monotone_forM {A B} (f : A → M B) l :
  (∀ a, monotone (f a)) → monotone (forM f l).
Proof.
  intros Hf. induction l as [|a l IH]; simpl; [apply monotone_ret|].
  apply monotone_bind; [done|]. intros b.
  apply monotone_bind; [done|]. intros bs. apply monotone_ret.
Qed.

Lemma monotone_foldM {A B} (f : A → B → M A) l :
  (∀ a b, monotone (f a b)) → ∀ a, monotone (foldM f a l).
Proof.
  intros Hf. induction l as [|b l IH]; intros a; simpl; [apply monotone_ret|].
  apply monotone_bind; [done|]. intros a'. apply IH.
Qed.

(** A computation that leaves the state as it is. *)
Lemma monotone_pure {A} (m : M A) :
  (∀ st r st', m st = (r, st') → st' = st) → monotone m.
Proof. intros H st r st' E. apply H in E as ->. apply grows_refl. Qed.

Lemma get_class_state cls st r st' : get_class cls st = (r, st') → st' = st.
Proof.
  cbv [get_class bind get ret raise].
  destruct (classes st !! cls); by intros [= _ <-].
Qed.

Lemma monotone_call_hook h cname ct cvalue dv :
  monotone (call_hook h cname ct cvalue dv).
Proof.
  intros st r st'. unfold call_hook. destruct (h _ _ _ _ _) as [x mem].
  intros [= _ <-]. split; [by split|done].
Qed.

Lemma monotone_consult hook cname ct cvalue dv :
  monotone (consult hook cname ct cvalue dv).
Proof.
  destruct hook as [h|]; simpl; [|apply monotone_ret].
  apply monotone_bind; [apply monotone_call_hook|]. intros tested.
  destruct tested; try apply monotone_ret;
    (apply monotone_bind; [apply monotone_call_hook|]; intros; apply monotone_ret).
Qed.

Lemma monotone__create_dataclass s : monotone (_create_dataclass s).
Proof.
  intros st r st'. cbv [_create_dataclass bind get].
  destruct (dataclass_cache st !! sid s) eqn:Ec;
    [intros [= _ <-]; apply grows_refl|].
  destruct (_STRUCTURE_DATACLASS_MAP st !! sname s); simpl.
  { intros [= _ <-]. split; [by split|]. split; [done|]. simpl.
    by apply insert_subseteq. }
  destruct (spack s); simpl; intros [= _ <-].
  - split; [split; simpl; [lia|]|].
    + intros id Hid. rewrite lookup_insert_ne; [done|lia].
    + split; [done|]. simpl. by apply insert_subseteq.
  - split; [split; simpl; [lia|done]|done].
Qed.

Lemma monotone__create_ctypes_class d b p : monotone (_create_ctypes_class d b p).
Proof.
  intros st r st' H.
  destruct (ctypes_cache st !! (d, b, p)) as [sc|] eqn:E.
  { rewrite (_create_ctypes_class_hit _ _ _ _ _ E) in H. injection H as _ <-.
    apply grows_refl. }
  revert H. cbv [_create_ctypes_class bind get get_class]. rewrite E.
  destruct (classes st !! d) as [dc|]; simpl.
  2:{ intros [= _ <-]. apply grows_refl. }
  case_bool_decide.
  2:{ intros [= _ <-]. split; [split; simpl; [lia|done]|done]. }
  destruct (mapM _ _) as [flds|]; simpl; intros [= _ <-].
  - split; [split; simpl; [lia|done]|]. split; [|done]. simpl.
    by apply insert_subseteq.
  - split; [split; simpl; [lia|done]|done].
Qed.

Lemma monotone_ctype_method cls : monotone (ctype_method cls).
Proof.
  destruct cls; try apply monotone_raise. simpl.
  apply monotone_bind; [apply monotone_pure, get_class_state|]. intros dc.
  destruct (dc_cdata_base dc), (dc_cdata_pack dc); try apply monotone_raise.
  apply monotone__create_ctypes_class.
Qed.

Lemma monotone_instantiate datacls d : monotone (instantiate datacls d).
Proof.
  destruct datacls; simpl;
    try (case_bool_decide; try apply monotone_raise; apply monotone_ret);
    try (case_bool_decide; apply monotone_raise).
  apply monotone_bind; [apply monotone_pure, get_class_state|]. intros dc.
  apply monotone_lift.
Qed.

Lemma monotone_decode_field rec datacls bin padding hook d cname ct :
  (∀ t s p h, monotone (rec t s p h)) →
  monotone (decode_field rec datacls bin padding hook d cname ct).
Proof.
  intros Hrec. unfold decode_field.
  apply monotone_bind; [apply monotone_lift|]. intros cvalue.
  apply monotone_bind; [apply monotone_pure, class_getattr_state|]. intros dv.
  apply monotone_bind; [apply monotone_consult|]. intros [v|];
    [apply monotone_ret|].
  apply monotone_bind; [|intros; apply monotone_ret].
  destruct (_ && _); [apply monotone_ret|].
  destruct (has_length_and_type cvalue).
  { apply monotone_bind; [apply monotone_lift|]. intros es.
    destruct (array_type cvalue) as [[]|]; try apply monotone_ret.
    apply monotone_bind; [|intros; apply monotone_ret].
    apply monotone_forM. intros e.
    apply monotone_bind; [apply monotone__create_dataclass|]. intros dc.
    apply Hrec. }
  destruct (has_fields cvalue); [|apply monotone_ret].
  apply monotone_bind; [apply Hrec|]. intros; apply monotone_ret.
Qed.

Lemma monotone__ctypes2dataclass fuel :
  ∀ datacls bin padding hook,
    monotone (_ctypes2dataclass fuel datacls bin padding hook).
Proof.
  induction fuel as [|fuel IH]; intros; simpl; [apply monotone_raise|].
  apply monotone_bind; [|intros; apply monotone_instantiate].
  apply monotone_foldM. intros. by apply monotone_decode_field.
Qed.

Lemma monotone_encode_field rec inst padding hook structure cname ct :
  (∀ v p h, monotone (rec v p h)) →
  monotone (encode_field rec inst padding hook structure cname ct).
Proof.
  intros Hrec. unfold encode_field.
  apply monotone_bind; [apply monotone_lift|]. intros cvalue.
  apply monotone_bind; [apply monotone_pure, instance_getattr_state|]. intros dv.
  apply monotone_bind; [apply monotone_consult|]. intros [v|];
    [apply monotone_lift|].
  apply monotone_bind; [|intros; apply monotone_lift].
  destruct (has_length_and_type cvalue).
  { apply monotone_bind; [apply monotone_lift|]. intros es.
    destruct (array_type cvalue) as [[]|];
      try (apply monotone_bind; [apply monotone_lift|];
           intros; apply monotone_lift).
    apply monotone_bind; [by apply monotone_forM|]. intros l.
    apply monotone_bind; [apply monotone_lift|]. intros; apply monotone_lift. }
  destruct (has_fields cvalue); [|apply monotone_ret].
  apply monotone_bind; [apply Hrec|]. intros; apply monotone_lift.
Qed.

Lemma monotone__dataclass2ctypes fuel :
  ∀ inst padding hook, monotone (_dataclass2ctypes fuel inst padding hook).
Proof.
  induction fuel as [|fuel IH]; intros; simpl; [apply monotone_raise|].
  apply monotone_bind; [apply monotone_ctype_method|]. intros sc.
  apply monotone_bind; [|intros; apply monotone_ret].
  apply monotone_foldM. intros. by apply monotone_encode_field.
Qed.

Lemma monotone_class_decode_hook cls : monotone (class_decode_hook cls).
Proof.
  destruct cls; try apply monotone_raise. simpl.
  apply monotone_bind; [apply monotone_pure, get_class_state|].
  intros; apply monotone_ret.
Qed.

Lemma monotone_from_ctype fuel cls structure padding hook :
  monotone (from_ctype fuel cls structure padding hook).
Proof.
  unfold from_ctype. apply monotone_bind.
  - destruct hook; [apply monotone_ret|apply monotone_class_decode_hook].
  - intros. apply monotone__ctypes2dataclass.
Qed.

Lemma monotone_to_ctype fuel self padding hook :
  monotone (to_ctype fuel self padding hook).
Proof.
  unfold to_ctype. apply monotone_bind.
  - destruct hook; [apply monotone_ret|apply monotone_class_decode_hook].
  - intros. apply monotone__dataclass2ctypes.
Qed.

Lemma monotone_from_buffer reader fuel cls buffer offset padding hook :
  monotone (from_buffer reader fuel cls buffer offset padding hook).
Proof.
  unfold from_buffer.
  apply monotone_bind; [apply monotone_ctype_method|]. intros c.
  apply monotone_bind; [apply monotone_lift|]. intros s.
  apply monotone_from_ctype.
Qed.

Lemma monotone_from_buffer_copy reader fuel cls buffer offset padding hook :
  monotone (from_buffer_copy reader fuel cls buffer offset padding hook).
Proof. apply monotone_from_buffer. Qed.

Lemma run_api_grows c st : grows st (run_api c st).
Proof.
  destruct c as [cls|fuel cls s p h|fuel self p h|cls src|rd fuel cls b o p h
                |rd fuel cls b o p h|[d b p|s]];
    unfold run_api, run_call.
  - eapply monotone_ctype_method, surjective_pairing.
  - eapply monotone_from_ctype, surjective_pairing.
  - eapply monotone_to_ctype, surjective_pairing.
  - eapply (monotone_instantiate (t_dataclass cls) src), surjective_pairing.
  - eapply monotone_from_buffer, surjective_pairing.
  - eapply monotone_from_buffer_copy, surjective_pairing.
  - eapply monotone__create_ctypes_class, surjective_pairing.
  - eapply monotone__create_dataclass, surjective_pairing.
Qed.

Lemma run_apis_grows cs st : grows st (run_apis cs st).
Proof.
  revert st. induction cs as [|c cs IH]; intros st; [apply grows_refl|].
  simpl. eapply grows_trans; [apply run_api_grows|apply IH].
Qed.

(** ** Invariants of the state *)

Section Keeps.
Variable I : state → Prop.
Hypothesis keeps_call_hook : ∀ h cname ct cvalue dv,
  keeps I (call_hook h cname ct cvalue dv).
Hypothesis keeps__create_dataclass : ∀ s, keeps I (_create_dataclass s).
Hypothesis keeps__create_ctypes_class : ∀ d b p,
  keeps I (_create_ctypes_class d b p).

Lemma keeps_pure {A} (m : M A) :
  (∀ st r st', m st = (r, st') → st' = st) → keeps I m.
Proof. intros H st r st' HI E. by apply H in E as ->. Qed.

Lemma keeps_ret {A} (a : A) : keeps I (ret a).
Proof. apply keeps_pure. by intros st r st' [= _ <-]. Qed.

Lemma keeps_raise {A} e : keeps I (raise e : M A).
Proof. apply keeps_pure. by intros st r st' [= _ <-]. Qed.

Lemma keeps_lift {A} (x : result A) : keeps I (lift x).
Proof. apply keeps_pure. by intros st r st' [= _ <-]. Qed.

Lemma keeps_bind {A B} (m : M A) (k : A → M B) :
  keeps I m → (∀ a, keeps I (k a)) → keeps I (bind m k).
Proof.
  intros Hm Hk st r st' HI. unfold bind.
  destruct (m st) as [[e|a] st1] eqn:E.
  - intros [= _ <-]. by eapply Hm.
  - intros H. eapply Hk; [|done]. by eapply Hm.
Qed.

Lemma keeps_forM {A B} (f : A → M B) l :
  (∀ a, keeps I (f a)) → keeps I (forM f l).
Proof.
  intros Hf. induction l as [|a l IH]; simpl; [apply keeps_ret|].
  apply keeps_bind; [done|]. intros b.
  apply keeps_bind; [done|]. intros bs. apply keeps_ret.
Qed.

Lemma keeps_foldM {A B} (f : A → B → M A) l :
  (∀ a b, keeps I (f a b)) → ∀ a, keeps I (foldM f a l).
Proof.
  intros Hf. induction l as [|b l IH]; intros a; simpl; [apply keeps_ret|].
  apply keeps_bind; [done|]. intros a'. apply IH.
Qed.

Lemma keeps_consult hook cname ct cvalue dv :
  keeps I (consult hook cname ct cvalue dv).
Proof using keeps_call_hook.
  destruct hook as [h|]; simpl; [|apply keeps_ret].
  apply keeps_bind; [apply keeps_call_hook|]. intros tested.
  destruct tested; try apply keeps_ret;
    (apply keeps_bind; [apply keeps_call_hook|]; intros; apply keeps_ret).
Qed.

Lemma keeps_instantiate datacls d : keeps I (instantiate datacls d).
Proof.
  destruct datacls; simpl;
    try (case_bool_decide; try apply keeps_raise; apply keeps_ret);
    try (case_bool_decide; apply keeps_raise).
  apply keeps_bind; [apply keeps_pure, get_class_state|]. intros dc.
  apply keeps_lift.
Qed.

Lemma keeps_decode_field rec datacls bin padding hook d cname ct :
  (∀ t s p h, keeps I (rec t s p h)) →
  keeps I (decode_field rec datacls bin padding hook d cname ct).
Proof using keeps_call_hook keeps__create_dataclass.
  intros Hrec. unfold decode_field.
  apply keeps_bind; [apply keeps_lift|]. intros cvalue.
  apply keeps_bind; [apply keeps_pure, class_getattr_state|]. intros dv.
  apply keeps_bind; [apply keeps_consult|]. intros [v|]; [apply keeps_ret|].
  apply keeps_bind; [|intros; apply keeps_ret].
  destruct (_ && _); [apply keeps_ret|].
  destruct (has_length_and_type cvalue).
  { apply keeps_bind; [apply keeps_lift|]. intros es.
    destruct (array_type cvalue) as [[]|]; try apply keeps_ret.
    apply keeps_bind; [|intros; apply keeps_ret].
    apply keeps_forM. intros e.
    apply keeps_bind; [apply keeps__create_dataclass|]. intros dc.
    apply Hrec. }
  destruct (has_fields cvalue); [|apply keeps_ret].
  apply keeps_bind; [apply Hrec|]. intros; apply keeps_ret.
Qed.

Lemma keeps__ctypes2dataclass fuel :
  ∀ datacls bin padding hook,
    keeps I (_ctypes2dataclass fuel datacls bin padding hook).
Proof using keeps_call_hook keeps__create_dataclass.
  induction fuel as [|fuel IH]; intros; simpl; [apply keeps_raise|].
  apply keeps_bind; [|intros; apply keeps_instantiate].
  apply keeps_foldM. intros. by apply keeps_decode_field.
Qed.

Lemma keeps_class_decode_hook cls : keeps I (class_decode_hook cls).
Proof.
  destruct cls; try apply keeps_raise. simpl.
  apply keeps_bind; [apply keeps_pure, get_class_state|].
  intros; apply keeps_ret.
Qed.

Lemma keeps_from_ctype fuel cls structure padding hook :
  keeps I (from_ctype fuel cls structure padding hook).
Proof using keeps_call_hook keeps__create_dataclass.
  unfold from_ctype. apply keeps_bind.
  - destruct hook; [apply keeps_ret|apply keeps_class_decode_hook].
  - intros. apply keeps__ctypes2dataclass.
Qed.

Lemma keeps_ctype_method cls : keeps I (ctype_method cls).
Proof using keeps__create_ctypes_class.
  destruct cls; try apply keeps_raise. simpl.
  apply keeps_bind; [apply keeps_pure, get_class_state|]. intros dc.
  destruct (dc_cdata_base dc), (dc_cdata_pack dc); try apply keeps_raise.
  apply keeps__create_ctypes_class.
Qed.

Lemma keeps_encode_field rec inst padding hook structure cname ct :
  (∀ v p h, keeps I (rec v p h)) →
  keeps I (encode_field rec inst padding hook structure cname ct).
Proof using keeps_call_hook.
  intros Hrec. unfold encode_field.
  apply keeps_bind; [apply keeps_lift|]. intros cvalue.
  apply keeps_bind; [apply keeps_pure, instance_getattr_state|]. intros dv.
  apply keeps_bind; [apply keeps_consult|]. intros [v|]; [apply keeps_lift|].
  apply keeps_bind; [|intros; apply keeps_lift].
  destruct (has_length_and_type cvalue).
  { apply keeps_bind; [apply keeps_lift|]. intros es.
    destruct (array_type cvalue) as [[]|];
      try (apply keeps_bind; [apply keeps_lift|]; intros; apply keeps_lift).
    apply keeps_bind; [by apply keeps_forM|]. intros l.
    apply keeps_bind; [apply keeps_lift|]. intros; apply keeps_lift. }
  destruct (has_fields cvalue); [|apply keeps_ret].
  apply keeps_bind; [apply Hrec|]. intros; apply keeps_lift.
Qed.

Lemma keeps__dataclass2ctypes fuel :
  ∀ inst padding hook, keeps I (_dataclass2ctypes fuel inst padding hook).
Proof using keeps_call_hook keeps__create_ctypes_class.
  induction fuel as [|fuel IH]; intros; simpl; [apply keeps_raise|].
  apply keeps_bind; [apply keeps_ctype_method|]. intros sc.
  apply keeps_bind; [|intros; apply keeps_ret].
  apply keeps_foldM. intros. by apply keeps_encode_field.
Qed.

Lemma keeps_to_ctype fuel self padding hook :
  keeps I (to_ctype fuel self padding hook).
Proof using keeps_call_hook keeps__create_ctypes_class.
  unfold to_ctype. apply keeps_bind.
  - destruct hook; [apply keeps_ret|apply keeps_class_decode_hook].
  - intros. apply keeps__dataclass2ctypes.
Qed.

Lemma keeps_from_buffer reader fuel cls buffer offset padding hook :
  keeps I (from_buffer reader fuel cls buffer offset padding hook).
Proof using keeps_call_hook keeps__create_dataclass keeps__create_ctypes_class.
  unfold from_buffer.
  apply keeps_bind; [apply keeps_ctype_method|]. intros c.
  apply keeps_bind; [apply keeps_lift|]. intros s.
  apply keeps_from_ctype.
Qed.

Lemma keeps_from_buffer_copy reader fuel cls buffer offset padding hook :
  keeps I (from_buffer_copy reader fuel cls buffer offset padding hook).
Proof using keeps_call_hook keeps__create_dataclass keeps__create_ctypes_class.
  apply keeps_from_buffer.
Qed.

Lemma keeps_run_api c st : I st → I (run_api c st).
Proof using keeps_call_hook keeps__create_dataclass keeps__create_ctypes_class.
  intros HI.
  destruct c as [cls|fuel cls s p h|fuel self p h|cls src|rd fuel cls b o p h
                |rd fuel cls b o p h|[d b p|s]];
    unfold run_api, run_call.
  - eapply keeps_ctype_method; [done|apply surjective_pairing].
  - eapply keeps_from_ctype; [done|apply surjective_pairing].
  - eapply keeps_to_ctype; [done|apply surjective_pairing].
  - eapply (keeps_instantiate (t_dataclass cls) src); [done|apply surjective_pairing].
  - eapply keeps_from_buffer; [done|apply surjective_pairing].
  - eapply keeps_from_buffer_copy; [done|apply surjective_pairing].
  - eapply keeps__create_ctypes_class; [done|apply surjective_pairing].
  - eapply keeps__create_dataclass; [done|apply surjective_pairing].
Qed.

Lemma keeps_run_apis cs : ∀ st, I st → I (run_apis cs st).
Proof using keeps_call_hook keeps__create_dataclass keeps__create_ctypes_class.
  induction cs as [|c cs IH]; intros st HI; [done|].
  simpl. apply IH. by apply keeps_run_api.
Qed.

End Keeps.

(** ** Well-formed states *)

Lemma imap_classes_lookup (cs : list dataclass) k id :
  (list_to_map (imap (λ i c, (k + i, c)) cs) : gmap nat dataclass) !! id
  = if decide (k ≤ id) then cs !! (id - k) else None.
Proof.
  revert k. induction cs as [|c cs IH]; intros k.
  - simpl. rewrite lookup_empty. by case_decide.
  - rewrite imap_cons. simpl.
    destruct (decide (id = k + 0)) as [->|Hne].
    + rewrite lookup_insert_eq, decide_True by lia.
      by replace (k + 0 - k) with 0 by lia.
    + rewrite lookup_insert_ne by done.
      rewrite (imap_ext _ (λ i c, (S k + i, c)))
        by (intros; unfold compose; f_equal; lia).
      rewrite IH. repeat case_decide; try lia; try done.
      by replace (id - k) with (S (id - S k)) by lia.
Qed.

Lemma initial_classes_lookup cs id : classes (initial cs) !! id = cs !! id.
Proof.
  unfold initial. simpl.
  rewrite (imap_ext _ (λ i c, (0 + i, c))) by done.
  rewrite imap_classes_lookup, decide_True by lia. by rewrite Nat.sub_0_r.
Qed.

(** The interpreter is well formed when the classes have just been
    defined. *)
Lemma well_formed_initial cs : well_formed (initial cs).
Proof.
  split; simpl; try (intros; by rewrite ?lookup_empty in * ).
  intros id [c Hc].
  pose proof (initial_classes_lookup cs id) as H. simpl in H.
  rewrite H in Hc. by apply lookup_lt_Some in Hc.
Qed.

Lemma well_formed_call_hook h cname ct cvalue dv :
  keeps well_formed (call_hook h cname ct cvalue dv).
Proof.
  intros st r st' [] . unfold call_hook. destruct (h _ _ _ _ _) as [x mem].
  intros [= _ <-]. by split.
Qed.

Lemma well_formed_one_id_used st : well_formed st → well_formed (one_id_used st).
Proof.
  intros []. split; simpl; try done.
  - intros id Hid. by apply Nat.lt_lt_succ_r, wf_classes0.
  - intros k sc Hk. destruct (wf_descriptor_ids0 k sc Hk). split; [lia|done].
Qed.

Lemma well_formed__create_dataclass s : keeps well_formed (_create_dataclass s).
Proof.
  intros st r st' Hwf. cbv [_create_dataclass bind get].
  destruct (dataclass_cache st !! sid s) eqn:Ec; [by intros [= _ <-]|].
  destruct (_STRUCTURE_DATACLASS_MAP st !! sname s) as [d|] eqn:Em; simpl.
  { intros [= _ <-]. destruct Hwf. split; simpl; try done.
    intros k d' Hk. destruct (decide (k = sid s)) as [->|Hne].
    - rewrite lookup_insert_eq in Hk. injection Hk as <-. by eapply wf_map0.
    - rewrite lookup_insert_ne in Hk by done. by eapply wf_dataclass_cache0. }
  destruct (spack s); simpl; intros [= _ <-];
    [|by apply (well_formed_one_id_used st)].
  assert (Hfresh : classes st !! next_id st = None).
  { destruct (classes st !! next_id st) eqn:E; [|done].
    assert (next_id st < next_id st) by (apply (wf_classes _ Hwf); by eexists).
    lia. }
  assert (Hold : ∀ id, is_Some (classes st !! id) → id ≠ next_id st).
  { intros id [c Hc] ->. by rewrite Hfresh in Hc. }
  destruct Hwf. split; simpl.
  - intros id Hid. destruct (decide (id = next_id st)) as [->|Hne]; [lia|].
    rewrite lookup_insert_ne in Hid by done. by apply Nat.lt_lt_succ_r, wf_classes0.
  - intros k sc Hk. destruct (wf_descriptor_ids0 k sc Hk) as [Hlt Hnone].
    split; [lia|]. rewrite lookup_insert_ne; [done|lia].
  - done.
  - intros d b p sc Hk.
    destruct (wf_descriptors0 d b p sc Hk) as (Hb & Hp & dc & Hdc & Hn & Hf).
    split; [done|]. split; [done|]. exists dc. split; [|done].
    rewrite lookup_insert_ne; [done|]. intros <-. by rewrite Hfresh in Hdc.
  - intros name d Hd. apply wf_map0 in Hd as Hd'.
    rewrite lookup_insert_ne; [done|]. intros <-. by apply (Hold _ Hd').
  - intros k d Hk. destruct (decide (k = sid s)) as [->|Hne].
    + rewrite lookup_insert_eq in Hk. injection Hk as <-.
      rewrite lookup_insert_eq. by eexists.
    + rewrite lookup_insert_ne in Hk by done.
      apply wf_dataclass_cache0 in Hk as Hd'.
      rewrite lookup_insert_ne; [done|]. intros <-. by apply (Hold _ Hd').
Qed.

Lemma well_formed__create_ctypes_class d b p :
  keeps well_formed (_create_ctypes_class d b p).
Proof.
  intros st r st' Hwf.
  destruct (ctypes_cache st !! (d, b, p)) as [sc|] eqn:E.
  { rewrite (_create_ctypes_class_hit _ _ _ _ _ E). by intros [= _ <-]. }
  cbv [_create_ctypes_class bind get get_class]. rewrite E.
  destruct (classes st !! d) as [dc|] eqn:Ed; simpl; [|by intros [= _ <-]].
  case_bool_decide; [|intros [= _ <-]; by apply (well_formed_one_id_used st)].
  destruct (mapM _ _) as [flds|] eqn:Ef; simpl; intros [= _ <-];
    [|by apply (well_formed_one_id_used st)].
  assert (Hfresh : classes st !! next_id st = None).
  { destruct (classes st !! next_id st) eqn:E'; [|done].
    assert (next_id st < next_id st) by (apply (wf_classes _ Hwf); by eexists).
    lia. }
  destruct Hwf. split; simpl.
  - intros id Hid. by apply Nat.lt_lt_succ_r, wf_classes0.
  - intros k sc Hk. destruct (decide (k = (d, b, p))) as [->|Hne].
    + rewrite lookup_insert_eq in Hk. injection Hk as <-. simpl. split; [lia|done].
    + rewrite lookup_insert_ne in Hk by done.
      destruct (wf_descriptor_ids0 k sc Hk). split; [lia|done].
  - intros k k' sc sc' Hk Hk' Hid.
    destruct (decide (k = (d, b, p))) as [->|Hne];
      destruct (decide (k' = (d, b, p))) as [->|Hne']; [done| | |].
    + rewrite lookup_insert_eq in Hk. injection Hk as <-.
      rewrite lookup_insert_ne in Hk' by done.
      destruct (wf_descriptor_ids0 k' sc' Hk'). simpl in Hid. lia.
    + rewrite lookup_insert_eq in Hk'. injection Hk' as <-.
      rewrite lookup_insert_ne in Hk by done.
      destruct (wf_descriptor_ids0 k sc Hk). simpl in Hid. lia.
    + rewrite lookup_insert_ne in Hk, Hk' by done. by eapply wf_descriptors_distinct0.
  - intros d' b' p' sc Hk. destruct (decide ((d', b', p') = (d, b, p))) as [Heq|Hne].
    + injection Heq as -> -> ->. rewrite lookup_insert_eq in Hk. injection Hk as <-.
      simpl. split; [done|]. split; [done|]. by exists dc.
    + rewrite lookup_insert_ne in Hk by done. by apply wf_descriptors0.
  - intros name d' Hd'. destruct (decide (name = "_ctypes_generated_from_" +:+ dc_name dc))
      as [->|Hne].
    + rewrite lookup_insert_eq in Hd'. injection Hd' as <-. by eexists.
    + rewrite lookup_insert_ne in Hd' by done. by eapply wf_map0.
  - done.
Qed.

(** Every call of the module keeps the state well formed. *)
Lemma well_formed_run_apis cs st : well_formed st → well_formed (run_apis cs st).
Proof.
  apply keeps_run_apis.
  - apply well_formed_call_hook.
  - apply well_formed__create_dataclass.
  - apply well_formed__create_ctypes_class.
Qed.

(** ** More on the generators *)

Lemma ctype_method_inv cls st sc st1 :
  ctype_method (t_dataclass cls) st = (Ok sc, st1) →
  ∃ dc b p, classes st !! cls = Some dc ∧ dc_cdata_base dc = Some b ∧
            dc_cdata_pack dc = Some p ∧
            _create_ctypes_class cls b p st = (Ok sc, st1).
Proof.
  cbv [ctype_method bind get_class get raise].
  destruct (classes st !! cls) as [dc|] eqn:E; simpl; [|done].
  destruct (dc_cdata_base dc) as [b|] eqn:Eb; [|done].
  destruct (dc_cdata_pack dc) as [p|] eqn:Ep; [|done].
  intros H. by exists dc, b, p.
Qed.

Lemma ctype_method_hit cls st dc b p sc :
  classes st !! cls = Some dc → dc_cdata_base dc = Some b →
  dc_cdata_pack dc = Some p → ctypes_cache st !! (cls, b, p) = Some sc →
  ctype_method (t_dataclass cls) st = (Ok sc, st).
Proof.
  intros Hc Hb Hp Hk. cbv [ctype_method bind get_class get].
  rewrite Hc. simpl. rewrite Hb, Hp. by apply _create_ctypes_class_hit.
Qed.

(** X1. Once [cls.ctype()] has returned a descriptor, it returns that same
    descriptor for good, whatever conversions, [from_dict] calls, buffer
    reads and generator calls are made in between. *)
Theorem ctype_is_stable st cls sc st1 calls :
  cls < next_id st →
  ctype_method (t_dataclass cls) st = (Ok sc, st1) →
  ctype_method (t_dataclass cls) (run_apis calls st1)
  = (Ok sc, run_apis calls st1).
Proof.
  intros Hlt H. apply ctype_method_inv in H as (dc & b & p & Hc & Hb & Hp & H).
  pose proof (monotone__create_ctypes_class _ _ _ _ _ _ H) as ([Hid Hcls] & _).
  destruct (run_apis_grows calls st1) as ([Hid' Hcls'] & Hcache & _).
  apply (ctype_method_hit _ _ dc b p); try done.
  - rewrite Hcls' by lia. by rewrite Hcls.
  - eapply lookup_weaken; [|exact Hcache]. by eapply _create_ctypes_class_cached.
Qed.

Lemma ctype_is_stable_witness :
  let st := initial [ItemD; Samples] in
  let st1 := (ctype_method (t_dataclass 0) st).2 in
  let calls :=
    [CallToCtype 5 (item 1 (bytes_of "abcde")) true None;
     CallCtype 1;
     CallFromCtype 5 0 (PC (zero_of (c_struct (Item_ctype 2)))) true None;
     CallFromDict 0 ∅] in
  ctype_method (t_dataclass 0) (run_apis calls st1)
  = (Ok (Item_ctype 2), run_apis calls st1).
Proof.
  intros st st1 calls.
  apply (ctype_is_stable st 0 (Item_ctype 2) st1 calls); [simpl; lia|reflexivity].
Defined.

(** X2. No call of the module changes or removes what exists: a class
    object that exists before a sequence of calls is the same after it, and
    an entry of the cache of [_create_ctypes_class] or of [_create_dataclass]
    is still there, with the same value. *)
Theorem existing_objects_are_kept calls st :
  (∀ id, id < next_id st → classes (run_apis calls st) !! id = classes st !! id)
  ∧ (∀ k sc, ctypes_cache st !! k = Some sc →
             ctypes_cache (run_apis calls st) !! k = Some sc)
  ∧ (∀ k d, dataclass_cache st !! k = Some d →
            dataclass_cache (run_apis calls st) !! k = Some d).
Proof.
  destruct (run_apis_grows calls st) as ([_ Hcls] & Hc & Hd).
  split; [done|]. split; intros; by eapply lookup_weaken.
Qed.

Lemma _create_dataclass_cached s st d st1 :
  _create_dataclass s st = (Ok d, st1) → dataclass_cache st1 !! sid s = Some d.
Proof.
  cbv [_create_dataclass bind get].
  destruct (dataclass_cache st !! sid s) eqn:Ec; [by intros [= <- <-]|].
  destruct (_STRUCTURE_DATACLASS_MAP st !! sname s); simpl.
  { intros [= <- <-]. simpl. by rewrite lookup_insert_eq. }
  destruct (spack s); simpl; [|done].
  intros [= <- <-]. simpl. by rewrite lookup_insert_eq.
Qed.

(** X3. [_create_dataclass] is memoized by the identity of the structure
    class: once it has returned a dataclass for a structure, it returns the
    same dataclass ever after, also when the name of the structure has in
    the meantime been registered for another dataclass. *)
Theorem create_dataclass_is_stable s st d st1 calls :
  _create_dataclass s st = (Ok d, st1) →
  _create_dataclass s (run_apis calls st1) = (Ok d, run_apis calls st1).
Proof.
  intros H. apply _create_dataclass_hit.
  destruct (run_apis_grows calls st1) as (_ & _ & Hd).
  eapply lookup_weaken; [|exact Hd]. by eapply _create_dataclass_cached.
Qed.

Lemma create_dataclass_is_stable_witness :
  let st := initial [ItemD; Item] in
  let st1 := (_create_ctypes_class 0 BigEndianStructure 1 st).2 in
  let st2 := (_create_dataclass (Item_ctype 2) st1).2 in
  let calls := [CallCtype 1; CallGenerator (CreateDataclass (Item_ctype 3))] in
  _STRUCTURE_DATACLASS_MAP (run_apis calls st2)
    !! "_ctypes_generated_from_Item" = Some 1 ∧
  _create_dataclass (Item_ctype 2) (run_apis calls st2)
  = (Ok 0, run_apis calls st2).
Proof.
  intros st st1 st2 calls. split; [vm_compute; reflexivity|].
  apply (create_dataclass_is_stable (Item_ctype 2) st1 0 st2 calls).
  reflexivity.
Defined.

(** X4. In a well-formed state the descriptors are in one-to-one
    correspondence with the arguments they were generated for: two calls of
    [_create_ctypes_class] that return descriptors with the same identity
    were made with the same dataclass, base and pack; and no descriptor has
    the identity of a dataclass. *)
Theorem descriptors_are_distinct st d b p sc st1 calls d' b' p' sc' st2 :
  well_formed st →
  _create_ctypes_class d b p st = (Ok sc, st1) →
  _create_ctypes_class d' b' p' (run_apis calls st1) = (Ok sc', st2) →
  (sid sc = sid sc' → (d, b, p) = (d', b', p')) ∧
  classes st2 !! sid sc = None ∧ classes st2 !! sid sc' = None.
Proof.
  intros Hwf H1 H2.
  assert (Hwf2 : well_formed st2).
  { eapply well_formed__create_ctypes_class; [|exact H2].
    apply well_formed_run_apis.
    by eapply well_formed__create_ctypes_class. }
  assert (Hk' : ctypes_cache st2 !! (d', b', p') = Some sc')
    by (by eapply _create_ctypes_class_cached).
  assert (Hk : ctypes_cache st2 !! (d, b, p) = Some sc).
  { pose proof (monotone__create_ctypes_class _ _ _ _ _ _ H2) as (_ & Hc2 & _).
    destruct (run_apis_grows calls st1) as (_ & Hc1 & _).
    eapply lookup_weaken; [|exact Hc2]. eapply lookup_weaken; [|exact Hc1].
    by eapply _create_ctypes_class_cached. }
  split; [|split].
  - intros Hid. by eapply (wf_descriptors_distinct _ Hwf2).
  - by destruct (wf_descriptor_ids _ Hwf2 _ _ Hk).
  - by destruct (wf_descriptor_ids _ Hwf2 _ _ Hk').
Qed.

Lemma descriptors_are_distinct_witness :
  let st := initial [ItemD; Samples] in
  let first := _create_ctypes_class 0 BigEndianStructure 1 st in
  let calls := [CallCtype 1] in
  let second := _create_ctypes_class 0 BigEndianStructure 2 (run_apis calls first.2) in
  first.1 = Ok (Item_ctype 2) ∧
  (∃ sc', second.1 = Ok sc' ∧ sid sc' = 4) ∧
  ((2 = 4 → (0, BigEndianStructure, 1%Z) = (0, BigEndianStructure, 2%Z)) ∧
   classes second.2 !! 2 = None ∧ classes second.2 !! 4 = None).
Proof.
  intros st first calls second.
  split; [reflexivity|]. split; [eexists; split; reflexivity|].
  apply (descriptors_are_distinct st 0 BigEndianStructure 1 (Item_ctype 2) first.2
           calls 0 BigEndianStructure 2
           (StructClass 4 "_ctypes_generated_from_Item" BigEndianStructure
              (Some 2%Z) [("number", c_uint32); ("string", c_array c_char 10)])
           second.2).
  - apply well_formed_initial.
  - reflexivity.
  - reflexivity.
Defined.

Lemma ctype_mirrors_descriptor st cls sc st1 :
  well_formed st →
  ctype_method (t_dataclass cls) st = (Ok sc, st1) →
  ∃ dc b p,
    classes st !! cls = Some dc ∧
    dc_cdata_base dc = Some b ∧ dc_cdata_pack dc = Some p ∧
    sname sc = "_ctypes_generated_from_" +:+ dc_name dc ∧
    sbase sc = b ∧ spack sc = Some p ∧
    Forall2 (λ f q, q.1 = f_name f ∧ f_ctype f = Some q.2)
      (dc_fields dc) (sfields sc).
Proof.
  intros Hwf H. apply ctype_method_inv in H as (dc & b & p & Hc & Hb & Hp & H).
  exists dc, b, p. repeat (split; [done|]).
  assert (Hwf1 : well_formed st1) by (by eapply well_formed__create_ctypes_class).
  pose proof (_create_ctypes_class_cached _ _ _ _ _ _ H) as Hk.
  destruct (wf_descriptors _ Hwf1 _ _ _ _ Hk) as (Hsb & Hsp & dc' & Hc' & Hn & Hf).
  pose proof (monotone__create_ctypes_class _ _ _ _ _ _ H) as ([_ Hcls] & _).
  rewrite Hcls, Hc in Hc' by (by apply (wf_classes _ Hwf); eexists).
  injection Hc' as <-. repeat (split; [done|]).
  unfold descriptor_fields in Hf. apply mapM_Some in Hf.
  eapply Forall2_impl; [exact Hf|]. intros f [n t]. simpl.
  destruct (f_ctype f); [|done]. simpl. by intros [= <- <-].
Qed.



(** X6. Whatever classes are defined first and whatever calls follow, the
    interpreter state is well formed. *)
Theorem reachable_states_are_well_formed cs calls :
  well_formed (run_apis calls (initial cs)).
Proof. apply well_formed_run_apis, well_formed_initial. Qed.

(** ** Classes that cannot be converted *)

Lemma ctype_method_unset st cls dc :
  classes st !! cls = Some dc →
  dc_cdata_base dc = None ∨ dc_cdata_pack dc = None →
  ctype_method (t_dataclass cls) st = (Raise AttributeError, st).
Proof.
  intros Hc H. cbv [ctype_method bind get_class get]. rewrite Hc. simpl.
  destruct H as [-> | ->]; [done|]. by destruct (dc_cdata_base dc).
Qed.

Lemma to_ctype_ctype_raises st cls dc attrs fuel padding hook e st1 :
  classes st !! cls = Some dc →
  ctype_method (t_dataclass cls) st = (Raise e, st1) →
  to_ctype (S fuel) (PData cls attrs) padding hook st = (Raise e, st1).
Proof.
  intros Hc H. unfold to_ctype.
  change (type_of (PData cls attrs)) with (t_dataclass cls).
  assert (Hd : ∀ h, _dataclass2ctypes (S fuel) (PData cls attrs) padding h st
                    = (Raise e, st1)).
  { intros h. simpl. change (type_of (PData cls attrs)) with (t_dataclass cls).
    by rewrite (bind_Raise _ _ _ _ _ H). }
  destruct hook as [h|].
  - by rewrite (bind_Ok _ _ st (Some h) st).
  - rewrite (bind_Ok _ _ st (dc_decode_hook dc) st); [done|].
    cbv [class_decode_hook bind get_class get]. by rewrite Hc.
Qed.

(** X7. A dataclass that sets no [_cdata_base_] or no [_cdata_pack_] has no
    binary form: [ctype()], [to_ctype], [from_buffer] and [from_buffer_copy]
    all raise [AttributeError], and nothing is generated or cached. *)
Theorem ctype_requires_base_and_pack st cls dc :
  classes st !! cls = Some dc →
  dc_cdata_base dc = None ∨ dc_cdata_pack dc = None →
  ctype_method (t_dataclass cls) st = (Raise AttributeError, st) ∧
  (∀ fuel attrs padding hook,
     to_ctype (S fuel) (PData cls attrs) padding hook st
     = (Raise AttributeError, st)) ∧
  (∀ reader fuel buffer offset padding hook,
     from_buffer reader fuel cls buffer offset padding hook st
     = (Raise AttributeError, st) ∧
     from_buffer_copy reader fuel cls buffer offset padding hook st
     = (Raise AttributeError, st)).
Proof.
  intros Hc H. pose proof (ctype_method_unset _ _ _ Hc H) as Hm.
  split; [done|]. split.
  - intros. by eapply to_ctype_ctype_raises.
  - intros. unfold from_buffer, from_buffer_copy.
    by rewrite !(bind_Raise _ _ _ _ _ Hm).
Qed.

Lemma ctype_requires_base_and_pack_witness :
  let Bare := {| dc_name := "Bare";
                 dc_fields := [Field "number" (Some c_uint32) (Some (PInt 0))];
                 dc_cdata_base := Some Structure;
                 dc_cdata_pack := None;
                 dc_decode_hook := None;
                 dc_encode_hook := None |} in
  let st := initial [Bare] in
  ctype_method (t_dataclass 0) st = (Raise AttributeError, st) ∧
  (∀ fuel attrs padding hook,
     to_ctype (S fuel) (PData 0 attrs) padding hook st
     = (Raise AttributeError, st)) ∧
  (∀ reader fuel buffer offset padding hook,
     from_buffer reader fuel 0 buffer offset padding hook st
     = (Raise AttributeError, st) ∧
     from_buffer_copy reader fuel 0 buffer offset padding hook st
     = (Raise AttributeError, st)).
Proof.
  intros Bare st. apply (ctype_requires_base_and_pack st 0 Bare).
  - reflexivity.
  - right. reflexivity.
Defined.

(** X8. A dataclass that takes its configuration from one of
    [NativeEndianStructureMixIn], [LittleEndianStructureMixIn],
    [BigEndianStructureMixIn] and [UnionMixIn] cannot be converted: these
    classes set [_cdata_endian] and [_cdata_pack], while [ctype()] reads
    [_cdata_base_] and [_cdata_pack_], so that [ctype()] and [to_ctype]
    raise [AttributeError]. *)
Theorem mixins_give_no_ctype st cls parent name fields :
  parent ∈ [NativeEndianStructureMixIn; LittleEndianStructureMixIn;
            BigEndianStructureMixIn; UnionMixIn] →
  classes st !! cls = Some (subclass parent name fields) →
  ctype_method (t_dataclass cls) st = (Raise AttributeError, st) ∧
  ∀ fuel attrs padding hook,
    to_ctype (S fuel) (PData cls attrs) padding hook st
    = (Raise AttributeError, st).
Proof.
  intros Hp Hc.
  assert (Hb : dc_cdata_base (subclass parent name fields) = None).
  { repeat (apply elem_of_cons in Hp as [-> | Hp]; [done|]).
    by apply elem_of_nil in Hp. }
  pose proof (ctype_method_unset _ _ _ Hc (or_introl Hb)) as Hm.
  split; [done|]. intros. by eapply to_ctype_ctype_raises.
Qed.

Lemma mixins_give_no_ctype_witness :
  let Point := subclass BigEndianStructureMixIn "Point"
                 [Field "x" (Some c_uint32) (Some (PInt 0))] in
  let st := initial [Point] in
  ctype_method (t_dataclass 0) st = (Raise AttributeError, st) ∧
  ∀ fuel attrs padding hook,
    to_ctype (S fuel) (PData 0 attrs) padding hook st
    = (Raise AttributeError, st).
Proof.
  intros Point st.
  apply (mixins_give_no_ctype st 0 BigEndianStructureMixIn "Point"
           [Field "x" (Some c_uint32) (Some (PInt 0))]).
  - apply list_elem_of_further, list_elem_of_further, list_elem_of_here.
  - reflexivity.
Defined.




(** ** More on decoding *)

Lemma class_getattr_lacks st cls dc cname :
  classes st !! cls = Some dc → lacks_default dc cname →
  class_getattr (t_dataclass cls) cname st = (Raise AttributeError, st).
Proof.
  intros Hc Hl. cbv [class_getattr bind get_class get ret raise].
  rewrite Hc. simpl.
  destruct (list_find _ _) as [[i f]|] eqn:E; [|done].
  apply list_find_Some in E as (Hi & Hn & _).
  rewrite (Hl f); [done| |done]. by eapply list_elem_of_lookup_2.
Qed.

Lemma decode_loop_lacks rec cls dc bin padding hook cname l :
  (∀ t s p h, preserves (rec t s p h)) →
  lacks_default dc cname → cname ∈ l.*1 →
  ∀ d st d' st',
    classes st !! cls = Some dc → cls < next_id st →
    foldM (λ d f, decode_field rec (t_dataclass cls) bin padding hook d f.1 f.2)
      d l st ≠ (Ok d', st').
Proof.
  intros Hrec Hl. induction l as [|[n ct] l IH]; intros Hin d st d' st' Hc Hlt H.
  - by apply elem_of_nil in Hin.
  - simpl in *. apply bind_inv in H as (d1 & st1 & Hstep & H).
    destruct (decide (n = cname)) as [->|Hne].
    + unfold decode_field in Hstep.
      apply bind_inv in Hstep as (cv & st2 & Hcv & Hstep).
      apply lift_inv in Hcv as [_ ->].
      apply bind_inv in Hstep as (dv & st3 & Hdv & _).
      by rewrite (class_getattr_lacks _ _ _ _ Hc Hl) in Hdv.
    + apply elem_of_cons in Hin as [Heq|Hin]; [done|].
      pose proof (preserves_decode_field _ _ _ _ _ _ _ _ Hrec _ _ _ Hstep)
        as [Hle Hcls].
      apply (IH Hin d1 st1 d' st'); [by rewrite Hcls|lia|done].
Qed.

Lemma from_ctype_inv fuel cls structure padding hook st v st' :
  from_ctype fuel cls structure padding hook st = (Ok v, st') →
  ∃ h, _ctypes2dataclass fuel (t_dataclass cls) structure padding h st
       = (Ok v, st') ∧
       match hook with
       | Some _ => h = hook
       | None => ∃ dc, classes st !! cls = Some dc ∧ h = dc_decode_hook dc
       end.
Proof.
  unfold from_ctype. intros H. apply bind_inv in H as (h & st1 & Hh & H).
  destruct hook as [h0|].
  - apply ret_inv in Hh as [-> ->]. by exists (Some h0).
  - revert Hh. cbv [class_decode_hook bind get_class get ret raise].
    destruct (classes st !! cls) as [dc|] eqn:E; simpl; [|done].
    intros [= <- <-]. exists (dc_decode_hook dc). split; [done|]. by exists dc.
Qed.

Lemma from_ctype_lacks fuel cls dc structure padding hook st cname v st' :
  classes st !! cls = Some dc → cls < next_id st →
  cname ∈ (fields_of structure).*1 → lacks_default dc cname →
  from_ctype fuel cls structure padding hook st ≠ (Ok v, st').
Proof.
  intros Hc Hlt Hin Hl H. apply from_ctype_inv in H as (h & H & _).
  apply _ctypes2dataclass_inv in H as (fuel' & d & st1 & -> & Hloop & _).
  revert Hloop. apply (decode_loop_lacks _ _ dc _ _ _ cname); try done.
  apply preserves__ctypes2dataclass.
Qed.

Lemma decode_needs_class_attributes_at fuel cls dc structure padding hook st cname :
  classes st !! cls = Some dc → cls < next_id st →
  cname ∈ (fields_of structure).*1 → lacks_default dc cname →
  ∃ e st', from_ctype fuel cls structure padding hook st = (Raise e, st').
Proof.
  intros Hc Hlt Hin Hl.
  destruct (from_ctype fuel cls structure padding hook st) as [[e|v] st'] eqn:E;
    [by eauto|].
  by destruct (from_ctype_lacks _ _ _ _ _ _ _ _ _ _ Hc Hlt Hin Hl E).
Qed.

(** X10. Decoding needs a class attribute for every field of the structure:
    [getattr(datacls, cname)] is evaluated for each entry of [_fields_]
    before the hook is asked, so for a dataclass with a field that has no
    default value [from_ctype] raises, whatever the content of the structure
    and whatever the hook. *)
Theorem decode_needs_class_attributes fuel cls dc structure padding hook st cname :
  classes st !! cls = Some dc → cls < next_id st →
  cname ∈ (fields_of structure).*1 → lacks_default dc cname →
  ∃ e st', from_ctype fuel cls structure padding hook st = (Raise e, st').
Proof. apply decode_needs_class_attributes_at. Qed.

Lemma Item_lacks_number : lacks_default Item "number".
Proof.
  intros f Hin Hn. apply elem_of_cons in Hin as [->|Hin]; [done|].
  apply elem_of_cons in Hin as [->|Hin]; [done|]. by apply elem_of_nil in Hin.
Qed.

Lemma decode_needs_class_attributes_witness :
  ∃ e st',
    from_ctype 5 0 (PC (zero_of (c_struct (Item_ctype 1)))) true
      (Some counting_hook) (initial [Item]) = (Raise e, st').
Proof.
  apply (decode_needs_class_attributes 5 0 Item
           (PC (zero_of (c_struct (Item_ctype 1)))) true (Some counting_hook)
           (initial [Item]) "number").
  - reflexivity.
  - simpl. lia.
  - apply list_elem_of_here.
  - exact Item_lacks_number.
Defined.

(** X11. [from_buffer] and [from_buffer_copy] never return for a dataclass
    with a field that has no default value, whatever the bytes and the hook:
    the descriptor of the class has an entry for the field, and decoding the
    instance read from the buffer needs the class attribute. *)
Theorem from_buffer_needs_defaults reader fuel cls dc f buffer offset padding hook st :
  well_formed st → returns_instances reader →
  classes st !! cls = Some dc →
  f ∈ dc_fields dc → lacks_default dc (f_name f) →
  (∃ e st', from_buffer reader fuel cls buffer offset padding hook st
            = (Raise e, st')) ∧
  (∃ e st', from_buffer_copy reader fuel cls buffer offset padding hook st
            = (Raise e, st')).
Proof.
  intros Hwf Hrd Hc Hf Hl.
  assert (H : ∀ v st',
    (let* c := ctype_method (t_dataclass cls) in
     let* structure := lift (reader c buffer offset) in
     from_ctype fuel cls (PC structure) padding hook) st ≠ (Ok v, st')).
  { intros v st' H. apply bind_inv in H as (sc & st1 & Hsc & H).
    apply bind_inv in H as (s & st2 & Hs & H). apply lift_inv in Hs as [Hs ->].
    apply Hrd in Hs as [fs ->].
    destruct (ctype_mirrors_descriptor _ _ _ _ Hwf Hsc)
      as (dc' & b & p & Hc' & _ & _ & _ & _ & _ & Hflds).
    rewrite Hc in Hc'. injection Hc' as <-.
    pose proof (monotone_ctype_method _ _ _ _ Hsc) as ([Hle Hcls] & _).
    assert (Hlt : cls < next_id st) by (by apply (wf_classes _ Hwf); eexists).
    revert H. apply (from_ctype_lacks _ _ dc _ _ _ _ (f_name f)); try done.
    - by rewrite Hcls.
    - lia.
    - simpl. apply list_elem_of_lookup_1 in Hf as [i Hi].
      destruct (Forall2_lookup_l _ _ _ _ _ Hflds Hi) as (q & Hq & <- & _).
      apply list_elem_of_fmap. exists q. split; [done|].
      by eapply list_elem_of_lookup_2. }
  split.
  - unfold from_buffer.
    destruct ((let* c := ctype_method (t_dataclass cls) in _) st)
      as [[e|v] st'] eqn:E; [by eauto|]. by destruct (H v st').
  - unfold from_buffer_copy.
    destruct ((let* c := ctype_method (t_dataclass cls) in _) st)
      as [[e|v] st'] eqn:E; [by eauto|]. by destruct (H v st').
Qed.

Lemma from_buffer_needs_defaults_witness :
  let reader := λ (c : struct_class) (_ : list byte) (_ : Z),
                  Ok (zero_of (c_struct c)) : result cdata in
  (∃ e st', from_buffer reader 5 0 [] 0 true None (initial [Item])
            = (Raise e, st')) ∧
  (∃ e st', from_buffer_copy reader 5 0 [] 0 true None (initial [Item])
            = (Raise e, st')).
Proof.
  intros reader.
  apply (from_buffer_needs_defaults reader 5 0 Item
           (Field "number" (Some c_uint32) None) [] 0 true None (initial [Item])).
  - apply well_formed_initial.
  - intros c buffer offset s [= <-]. eexists. reflexivity.
  - reflexivity.
  - apply list_elem_of_here.
  - exact Item_lacks_number.
Defined.

Lemma instantiate_type datacls (d : gmap string pyval) st v st' :
  instantiate datacls d st = (Ok v, st') → type_of v = datacls.
Proof.
  destruct datacls; simpl; try (case_bool_decide; [|done]); try done;
    try by intros [= <- _].
  intros H. apply bind_inv in H as (dc & st1 & _ & H). apply lift_inv in H as [H _].
  unfold dataclass_init in H. case_bool_decide; [|done].
  destruct (bind_fields _ _); [|done]. by injection H as <-.
Qed.

(** X12. With no hook in force the decoder copies: if [from_ctype] returns,
    the result is an instance of the class, and each of its fields holds
    exactly what [getattr(structure, name)] returns - a nested structure or
    an array as the ctypes object, a zero or empty value as it is. *)
Theorem decode_without_hook_copies fuel cls dc structure padding st v st' :
  classes st !! cls = Some dc → dc_decode_hook dc = None →
  from_ctype fuel cls structure padding None st = (Ok v, st') →
  type_of v = t_dataclass cls ∧
  ∀ cname, cname ∈ (fields_of structure).*1 →
    ∃ cvalue, struct_getattr structure cname = Ok cvalue ∧
              attr cname v = Some cvalue.
Proof.
  intros Hc Hh H. apply from_ctype_inv in H as (h & H & dc' & Hc' & ->).
  rewrite Hc in Hc'. injection Hc' as <-. rewrite Hh in H.
  apply _ctypes2dataclass_inv in H as (fuel' & d & st1 & -> & Hloop & Hinst).
  split; [by eapply instantiate_type|].
  intros cname Hin.
  apply (decode_loop_default _ _ _ _ cname) in Hloop as [_ Hl].
  destruct (Hl Hin) as (cvalue & Hg & Hd).
  exists cvalue. split; [done|]. by eapply instantiate_attr.
Qed.

Lemma decode_without_hook_copies_witness :
  let s := PC (CStruct (Samples_ctype 1)
                 {["values" := CArray c_uint16 [CInt 1; CInt 2; CInt 3]]}) in
  let run := from_ctype 5 0 s true None (initial [Samples]) in
  type_of (value_of run) = t_dataclass 0 ∧
  ∀ cname, cname ∈ (fields_of s).*1 →
    ∃ cvalue, struct_getattr s cname = Ok cvalue ∧
              attr cname (value_of run) = Some cvalue.
Proof.
  intros s run.
  apply (decode_without_hook_copies 5 0 Samples s true (initial [Samples])
           (value_of run) run.2).
  - reflexivity.
  - reflexivity.
  - vm_compute. reflexivity.
Defined.

(** ** Dataclasses made by [_create_dataclass] *)





(** ** What the converters leave alone *)

Lemma call_hook_frame h cname ct cvalue dv st r st' :
  call_hook h cname ct cvalue dv st = (r, st') →
  next_id st' = next_id st ∧ classes st' = classes st ∧
  ctypes_cache st' = ctypes_cache st ∧
  dataclass_cache st' = dataclass_cache st ∧
  _STRUCTURE_DATACLASS_MAP st' = _STRUCTURE_DATACLASS_MAP st.
Proof.
  unfold call_hook. destruct (h cname ct cvalue dv (hook_mem st)) as [x mem].
  by intros [= _ <-].
Qed.

(** X14. Each converter touches one generator only.  [from_ctype] never
    generates a descriptor: the cache of [_create_ctypes_class] and
    [_STRUCTURE_DATACLASS_MAP] are after the call what they were before it.
    [to_ctype] never creates a dataclass: the class objects and the cache of
    [_create_dataclass] are unchanged.  This holds whether the call returns
    or raises, and for every hook. *)
Theorem converters_keep_to_their_generator st :
  (∀ fuel cls structure padding hook,
     let st' := (from_ctype fuel cls structure padding hook st).2 in
     ctypes_cache st' = ctypes_cache st ∧
     _STRUCTURE_DATACLASS_MAP st' = _STRUCTURE_DATACLASS_MAP st) ∧
  (∀ fuel self padding hook,
     let st' := (to_ctype fuel self padding hook st).2 in
     classes st' = classes st ∧ dataclass_cache st' = dataclass_cache st).
Proof.
  split.
  - intros fuel cls structure padding hook.
    refine (keeps_from_ctype
              (λ s, ctypes_cache s = ctypes_cache st ∧
                    _STRUCTURE_DATACLASS_MAP s = _STRUCTURE_DATACLASS_MAP st)
              _ _ fuel cls structure padding hook st _ _ _
              (surjective_pairing _)); [| |done].
    + intros h cname ct cvalue dv st0 r st1 [H1 H2] E.
      apply call_hook_frame in E as (_ & _ & -> & _ & ->). done.
    + intros s st0 r st1 [H1 H2] E.
      destruct (_create_dataclass_frame s st0) as (Ha & Hb & _).
      rewrite E in Ha, Hb. simpl in Ha, Hb. by rewrite Ha, Hb.
  - intros fuel self padding hook.
    refine (keeps_to_ctype
              (λ s, classes s = classes st ∧
                    dataclass_cache s = dataclass_cache st)
              _ _ fuel self padding hook st _ _ _
              (surjective_pairing _)); [| |done].
    + intros h cname ct cvalue dv st0 r st1 [H1 H2] E.
      apply call_hook_frame in E as (_ & -> & _ & -> & _). done.
    + intros d b p st0 r st1 [H1 H2] E.
      destruct (ctypes_cache st0 !! (d, b, p)) as [sc|] eqn:Ek.
      * rewrite (_create_ctypes_class_hit _ _ _ _ _ Ek) in E. by injection E as _ <-.
      * apply (_create_ctypes_class_miss _ _ _ _ _ _ Ek) in E as (-> & -> & _).
        done.
Qed.

(** ** [from_dict] *)

Lemma bind_fields_total fs (src : gmap string pyval) :
  (∀ f, f ∈ fs → f_default f = None → is_Some (src !! f_name f)) →
  is_Some (bind_fields fs src).
Proof.
  induction fs as [|f fs IH]; intros H; [by eexists|]. simpl.
  destruct IH as [attrs ->].
  { intros g Hg. apply H. by apply list_elem_of_further. }
  destruct (src !! f_name f) as [v|] eqn:E; simpl; [by eexists|].
  destruct (f_default f) as [v|] eqn:Ed; simpl; [by eexists|].
  destruct (H f (list_elem_of_here _ _) Ed) as [v Hv]. congruence.
Qed.

Lemma bind_fields_spec fs (src attrs : gmap string pyval) :
  NoDup (f_name <$> fs) → bind_fields fs src = Some attrs →
  (∀ f, f ∈ fs →
        attrs !! f_name f = from_option Some (f_default f) (src !! f_name f)) ∧
  (∀ k, is_Some (attrs !! k) → k ∈ f_name <$> fs).
Proof.
  revert attrs. induction fs as [|f fs IH]; intros attrs Hnd H.
  - injection H as <-. split.
    + intros f Hf. by apply elem_of_nil in Hf.
    + intros k [v Hk]. by rewrite lookup_empty in Hk.
  - simpl in H. rewrite fmap_cons in Hnd. apply NoDup_cons in Hnd as [Hnot Hnd].
    destruct (from_option Some (f_default f) (src !! f_name f)) as [v|] eqn:Ev;
      [|done]. simpl in H.
    destruct (bind_fields fs src) as [attrs'|]; [|done]. injection H as <-.
    destruct (IH attrs' Hnd eq_refl) as [Hval Hdom]. split.
    + intros g Hg. apply elem_of_cons in Hg as [->|Hg].
      * by rewrite lookup_insert_eq.
      * rewrite lookup_insert_ne; [by apply Hval|].
        intros Heq. apply Hnot. rewrite Heq. apply list_elem_of_fmap. by exists g.
    + intros k Hk. rewrite fmap_cons.
      destruct (decide (k = f_name f)) as [->|Hne]; [apply list_elem_of_here|].
      apply list_elem_of_further, Hdom. by rewrite lookup_insert_ne in Hk.
Qed.

(** X15. When [from_dict] returns.  For a dataclass whose field names are
    distinct, a mapping whose keys are all field names and which has a value
    for every field without a default is accepted: the call returns an
    instance of the class and changes nothing else.  Each field holds the
    value of the mapping as it is - of whatever type, there is no check and
    no conversion - or, when the mapping has no such key, the default; and
    the instance has no other attributes. *)
Theorem from_dict_accepts st cls dc (src : gmap string pyval) :
  classes st !! cls = Some dc →
  NoDup (f_name <$> dc_fields dc) →
  (∀ k, is_Some (src !! k) → k ∈ f_name <$> dc_fields dc) →
  (∀ f, f ∈ dc_fields dc → f_default f = None → is_Some (src !! f_name f)) →
  ∃ attrs,
    from_dict cls src st = (Ok (PData cls attrs), st) ∧
    (∀ f, f ∈ dc_fields dc →
          attrs !! f_name f
          = match src !! f_name f with Some v => Some v | None => f_default f end) ∧
    (∀ k, is_Some (attrs !! k) → k ∈ f_name <$> dc_fields dc).
Proof.
  intros Hc Hnd Hkeys Hreq.
  destruct (bind_fields_total _ _ Hreq) as [attrs Hb].
  exists attrs. split.
  - unfold from_dict, instantiate, get_class, bind, get. rewrite Hc. simpl.
    unfold lift, dataclass_init. rewrite bool_decide_eq_true_2, Hb; [done|].
    intros k v Hk. apply Hkeys. by eexists.
  - destruct (bind_fields_spec _ _ _ Hnd Hb) as [Hval Hdom]. split; [|done].
    intros f Hf. rewrite (Hval f Hf). by destruct (src !! f_name f).
Qed.

Lemma from_dict_accepts_witness :
  let src : gmap string pyval := {["number" := PStr "seven"]} in
  ∃ attrs,
    from_dict 0 src (initial [ItemD]) = (Ok (PData 0 attrs), initial [ItemD]) ∧
    (∀ f, f ∈ dc_fields ItemD →
          attrs !! f_name f
          = match src !! f_name f with Some v => Some v | None => f_default f end) ∧
    (∀ k, is_Some (attrs !! k) → k ∈ f_name <$> dc_fields ItemD).
Proof.
  intros src. apply (from_dict_accepts (initial [ItemD]) 0 ItemD src).
  - reflexivity.
  - simpl. apply NoDup_cons. split; [|apply NoDup_singleton].
    intros H. by apply list_elem_of_singleton in H.
  - intros k [v Hk]. destruct (decide (k = "number")) as [->|Hne].
    + apply list_elem_of_here.
    + unfold src in Hk. by rewrite lookup_singleton_ne in Hk.
  - intros f Hf Hd. apply elem_of_cons in Hf as [->|Hf]; [done|].
    apply elem_of_cons in Hf as [->|Hf]; [done|]. by apply elem_of_nil in Hf.
Defined.

(** ** More on encoding *)

Lemma wrap_in_range s w z : (0 < w)%Z → in_range s w (wrap s w z).
Proof.
  intros Hw. unfold wrap, in_range.
  assert (Hp : (2 ^ w = 2 * 2 ^ (w - 1))%Z).
  { rewrite <- Z.pow_succ_r by lia. f_equal. lia. }
  assert (Hpos : (0 < 2 ^ (w - 1))%Z) by (apply Z.pow_pos_nonneg; lia).
  pose proof (Z.mod_pos_bound z (2 ^ w)%Z ltac:(lia)) as Hm.
  destruct s; simpl; [|done].
  destruct (Z.leb_spec (2 ^ (w - 1)) (z mod 2 ^ w)); lia.
Qed.

Lemma ctype_is_refl t : ctype_is t t = true.
Proof.
  induction t as [s w| | |e IH n|s]; simpl; try done.
  - by rewrite !bool_decide_eq_true_2.
  - by rewrite IH, bool_decide_eq_true_2.
  - by rewrite bool_decide_eq_true_2.
Qed.

Lemma zero_shaped t : shaped t (zero_of t).
Proof.
  destruct t as [s w| | |e n|s]; simpl.
  - exists 0%Z. split; [done|]. intros Hw. unfold in_range.
    assert ((0 < 2 ^ (w - 1))%Z) by (apply Z.pow_pos_nonneg; lia).
    assert ((0 < 2 ^ w)%Z) by (apply Z.pow_pos_nonneg; lia).
    destruct s; lia.
  - by eexists.
  - by eexists.
  - by rewrite ctype_is_refl, length_replicate, bool_decide_eq_true_2.
  - by rewrite bool_decide_eq_true_2.
Qed.

Lemma field_set_shaped t old v c :
  shaped t old → field_set t old v = Ok c → shaped t c.
Proof.
  assert (Hslot : ∀ t, slot_set t v = Ok c →
                       match t with
                       | c_array _ _ | c_struct _ => isinstance c t = true
                       | _ => True
                       end).
  { intros t0. destruct t0 as [s w| | |e n|s]; try done.
    - unfold slot_set. destruct v as [| | | | | |c'|]; try done.
      destruct (isinstance c' (c_array e n)) eqn:E; [|done]. by intros [= <-].
    - unfold slot_set. destruct v as [| | | | | |c'|]; try done.
      destruct (isinstance c' (c_struct s)) eqn:E; [|done]. by intros [= <-]. }
  destruct t as [s w| | |e n|s].
  - simpl. intros _. destruct (as_int v) as [z|]; [|done]. intros [= <-].
    eexists. split; [done|]. apply wrap_in_range.
  - simpl. intros _ [= <-]. by eexists.
  - simpl. intros _. destruct v as [| | |[|b []]| | | |]; simpl;
      try done; try (intros [= <-]; by eexists);
      try (case_bool_decide; [intros [= <-]; by eexists|done]).
  - intros Hold.
    destruct e; try exact (Hslot (c_array _ n)).
    unfold field_set, chars_set.
    destruct v as [| | |bs| | | |]; try done.
    case_bool_decide as Hlen; [done|]. intros [= <-].
    destruct old as [| | |e' es|]; try done. simpl in Hold.
    apply andb_true_iff in Hold as [_ Hn]. apply bool_decide_eq_true in Hn.
    simpl. apply bool_decide_eq_true.
    rewrite length_app, length_take, length_app, length_fmap, length_drop.
    simpl. lia.
  - intros _. exact (Hslot (c_struct s)).
Qed.

Lemma struct_setattr_shape sc fs name v s :
  instance_shape sc fs → struct_setattr (CStruct sc fs) name v = Ok s →
  ∃ fs', s = CStruct sc fs' ∧ instance_shape sc fs'.
Proof.
  intros [Hdom Hsh]. simpl.
  destruct (assoc name (sfields sc)) as [t|] eqn:Et;
    [|intros [= <-]; by exists fs].
  destruct (field_set _ _ _) as [e|c] eqn:Es; [done|]. intros [= <-].
  eexists. split; [done|].
  destruct (Hsh name t Et) as (c0 & Hc0 & Hshaped0). rewrite Hc0 in Es.
  split.
  - intros k Hk. destruct (decide (k = name)) as [->|Hne].
    + apply assoc_Some_elem in Et. apply list_elem_of_fmap. by exists (name, t).
    + rewrite lookup_insert_ne in Hk by done. by apply Hdom.
  - intros name' t' Ht'. destruct (decide (name' = name)) as [->|Hne].
    + rewrite lookup_insert_eq. rewrite Et in Ht'. injection Ht' as <-.
      exists c. split; [done|]. by eapply field_set_shaped.
    + rewrite lookup_insert_ne by done. by apply Hsh.
Qed.

(** A property of the structure that every [setattr] keeps is kept by a
    step of the encoder, and by its loop, whatever the hook. *)
Lemma encode_field_keeps (Q : cdata → Prop) rec inst padding hook s cname ct
    st s1 st1 :
  (∀ s name v s', Q s → struct_setattr s name v = Ok s' → Q s') →
  Q s → encode_field rec inst padding hook s cname ct st = (Ok s1, st1) → Q s1.
Proof.
  intros HQ Hs. unfold encode_field. intros H.
  apply bind_inv in H as (cvalue & st2 & _ & H).
  apply bind_inv in H as (dv & st3 & _ & H).
  apply bind_inv in H as (hooked & st4 & _ & H).
  destruct hooked as [v|].
  { apply lift_inv in H as [H _]. by eapply HQ. }
  apply bind_inv in H as (s' & st5 & Hb & H). apply lift_inv in H as [H _].
  eapply HQ; [|exact H].
  destruct (has_length_and_type _).
  { apply bind_inv in Hb as (es & st6 & _ & Hb).
    destruct (array_type _) as [[]|].
    5:{ apply bind_inv in Hb as (l & st7 & _ & Hb).
        apply bind_inv in Hb as (a & st8 & _ & Hb).
        apply lift_inv in Hb as [Hb _]. by eapply HQ. }
    all: apply bind_inv in Hb as (a & st8 & _ & Hb);
      apply lift_inv in Hb as [Hb _]; by eapply HQ. }
  destruct (has_fields _).
  { apply bind_inv in Hb as (v & st6 & _ & Hb). apply lift_inv in Hb as [Hb _].
    by eapply HQ. }
  by apply ret_inv in Hb as [-> _].
Qed.

Lemma encode_loop_keeps (Q : cdata → Prop) rec inst padding hook l :
  (∀ s name v s', Q s → struct_setattr s name v = Ok s' → Q s') →
  ∀ s st s' st',
    Q s →
    foldM (λ structure f, encode_field rec inst padding hook structure f.1 f.2)
      s l st = (Ok s', st') →
    Q s'.
Proof.
  intros HQ. induction l as [|[n ct] l IH]; intros s st s' st' Hs H.
  - by apply ret_inv in H as [-> _].
  - simpl in H. apply bind_inv in H as (s1 & st1 & Hstep & H).
    eapply IH; [|exact H]. by eapply encode_field_keeps.
Qed.

Lemma zero_map_dom (l : list (string * ctype)) k :
  is_Some ((list_to_map (List.map (λ p, (p.1, zero_of p.2)) l)
            : gmap string cdata) !! k) →
  k ∈ l.*1.
Proof.
  induction l as [|[n t] l IH]; simpl.
  - rewrite lookup_empty. by intros [? ?].
  - intros H. destruct (decide (k = n)) as [->|Hne]; [apply list_elem_of_here|].
    rewrite lookup_insert_ne in H by done. by apply list_elem_of_further, IH.
Qed.

Lemma zero_instance_shape sc :
  NoDup (sfields sc).*1 →
  instance_shape sc
    (list_to_map (List.map (λ p, (p.1, zero_of p.2)) (sfields sc))).
Proof.
  intros Hnd. split; [apply zero_map_dom|].
  intros name t Ht. exists (zero_of t). split; [|apply zero_shaped].
  apply zero_map_lookup; [done|]. by apply assoc_Some_elem.
Qed.

Lemma to_ctype_inv fuel cls attrs padding hook st v st' :
  to_ctype fuel (PData cls attrs) padding hook st = (Ok v, st') →
  ∃ h, _dataclass2ctypes fuel (PData cls attrs) padding h st = (Ok v, st') ∧
       match hook with
       | Some _ => h = hook
       | None => ∃ dc, classes st !! cls = Some dc ∧ h = dc_decode_hook dc
       end.
Proof.
  unfold to_ctype. change (type_of (PData cls attrs)) with (t_dataclass cls).
  intros H. apply bind_inv in H as (h & st1 & Hh & H).
  destruct hook as [h0|].
  - apply ret_inv in Hh as [-> ->]. by exists (Some h0).
  - revert Hh. cbv [class_decode_hook bind get_class get ret raise].
    destruct (classes st !! cls) as [dc|] eqn:E; simpl; [|done].
    intros [= <- <-]. exists (dc_decode_hook dc). split; [done|]. by exists dc.
Qed.

Lemma Forall2_names (fs : list field) (flds : list (string * ctype)) :
  Forall2 (λ f q, q.1 = f_name f ∧ f_ctype f = Some q.2) fs flds →
  flds.*1 = f_name <$> fs.
Proof.
  induction 1 as [|f q fs flds [Hn _] _ IH]; [done|].
  rewrite !fmap_cons. by rewrite Hn, IH.
Qed.

(** X16. What [to_ctype] returns, whatever the hook answers: an instance of
    the descriptor of the class of [self] - the one [ctype()] returns from
    then on - with one slot for each field of the dataclass and nothing
    else, in which every integer lies within the range of its type, and
    every array and nested structure is an instance of the type the field
    was declared with. *)
Theorem to_ctype_returns_instance fuel cls dc attrs padding hook st v st' :
  well_formed st →
  classes st !! cls = Some dc → NoDup (f_name <$> dc_fields dc) →
  to_ctype fuel (PData cls attrs) padding hook st = (Ok v, st') →
  ∃ sc fs,
    v = PC (CStruct sc fs) ∧
    ctype_method (t_dataclass cls) st' = (Ok sc, st') ∧
    (sfields sc).*1 = f_name <$> dc_fields dc ∧
    instance_shape sc fs.
Proof.
  intros Hwf Hc Hnd H. apply to_ctype_inv in H as (h & H & _).
  apply _dataclass2ctypes_inv in H as (fuel' & sc & st1 & s & -> & Hsc & Hloop & ->).
  change (type_of (PData cls attrs)) with (t_dataclass cls) in Hsc.
  destruct (ctype_mirrors_descriptor _ _ _ _ Hwf Hsc)
    as (dc' & b & p & Hc' & Hb & Hp & _ & _ & _ & Hflds).
  rewrite Hc in Hc'. injection Hc' as <-.
  apply Forall2_names in Hflds.
  assert (Hlt : cls < next_id st) by (by apply (wf_classes _ Hwf); eexists).
  pose proof (monotone_ctype_method _ _ _ _ Hsc) as ([Hle1 Hcls1] & _).
  assert (Hg : grows st1 st').
  { revert Hloop. apply monotone_foldM. intros.
    apply monotone_encode_field. apply monotone__dataclass2ctypes. }
  destruct Hg as ([Hle2 Hcls2] & Hcache & _).
  apply ctype_method_inv in Hsc as (dc' & b' & p' & Hc' & Hb' & Hp' & Hgen).
  rewrite Hc in Hc'. injection Hc' as <-.
  rewrite Hb in Hb'. injection Hb' as <-. rewrite Hp in Hp'. injection Hp' as <-.
  apply (encode_loop_keeps (λ s, ∃ fs, s = CStruct sc fs ∧ instance_shape sc fs))
    in Hloop as (fs & -> & Hshape).
  - exists sc, fs. split; [done|]. split; [|done].
    apply (ctype_method_hit _ _ dc b p); try done.
    + rewrite Hcls2 by lia. by rewrite Hcls1.
    + eapply lookup_weaken; [|exact Hcache]. by eapply _create_ctypes_class_cached.
  - intros s0 name x s0' (fs0 & -> & Hsh) Hset. by eapply struct_setattr_shape.
  - eexists. split; [done|]. apply zero_instance_shape. by rewrite Hflds.
Qed.

Lemma to_ctype_returns_instance_witness :
  let run := to_ctype 5 (item 70000 (bytes_of "abc")) true
               (Some (const_hook "number" (-1))) (initial [ItemD]) in
  ∃ sc fs,
    value_of run = PC (CStruct sc fs) ∧
    ctype_method (t_dataclass 0) run.2 = (Ok sc, run.2) ∧
    (sfields sc).*1 = f_name <$> dc_fields ItemD ∧
    instance_shape sc fs.
Proof.
  intros run.
  apply (to_ctype_returns_instance 5 0 ItemD
           (<["number" := PInt 70000]> (<["string" := PBytes (bytes_of "abc")]> ∅))
           true (Some (const_hook "number" (-1))) (initial [ItemD])
           (value_of run) run.2).
  - apply well_formed_initial.
  - reflexivity.
  - simpl. apply NoDup_cons. split; [|apply NoDup_singleton].
    intros H. by apply list_elem_of_singleton in H.
  - vm_compute. reflexivity.
Defined.









(** ** A hook that declines *)

Lemma alike_ret {A} (a : A) : alike (ret a) (ret a).
Proof. by intros st1 st2 H. Qed.

Lemma alike_raise {A} e : alike (raise e : M A) (raise e).
Proof. by intros st1 st2 H. Qed.

Lemma alike_lift {A} (x : result A) : alike (lift x) (lift x).
Proof. intros st1 st2 H. unfold lift. by destruct x. Qed.

Lemma alike_bind {A B} (m1 m2 : M A) (k1 k2 : A → M B) :
  alike m1 m2 → (∀ a, alike (k1 a) (k2 a)) → alike (bind m1 k1) (bind m2 k2).
Proof.
  intros Hm Hk st1 st2 Hs. unfold bind. destruct (Hm st1 st2 Hs) as [Hr Hs'].
  destruct (m1 st1) as [[e|a] st1'], (m2 st2) as [[e'|a'] st2'];
    simpl in *; try done.
  - by injection Hr as <-.
  - injection Hr as <-. by apply Hk.
Qed.

Lemma alike_forM {A B} (f1 f2 : A → M B) l :
  (∀ a, alike (f1 a) (f2 a)) → alike (forM f1 l) (forM f2 l).
Proof.
  intros Hf. induction l as [|a l IH]; simpl; [apply alike_ret|].
  apply alike_bind; [done|]. intros b.
  apply alike_bind; [done|]. intros bs. apply alike_ret.
Qed.

Lemma alike_foldM {A B} (f1 f2 : A → B → M A) l :
  (∀ a b, alike (f1 a b) (f2 a b)) → ∀ a, alike (foldM f1 a l) (foldM f2 a l).
Proof.
  intros Hf. induction l as [|b l IH]; intros a; simpl; [apply alike_ret|].
  apply alike_bind; [done|]. intros a'. apply IH.
Qed.

Lemma alike_get_class cls : alike (get_class cls) (get_class cls).
Proof.
  intros st1 st2 (Hn & Hc & Hk & Hd & Hm). cbv [get_class bind get ret raise].
  rewrite Hc. by destruct (classes st2 !! cls).
Qed.

Lemma alike_class_getattr datacls cname :
  alike (class_getattr datacls cname) (class_getattr datacls cname).
Proof.
  destruct datacls; try apply alike_raise. unfold class_getattr.
  apply alike_bind; [apply alike_get_class|]. intros dc.
  destruct (list_find _ _) as [[? f]|]; [|apply alike_raise].
  destruct (f_default f); [apply alike_ret|apply alike_raise].
Qed.

Lemma alike_instance_getattr inst cname :
  alike (instance_getattr inst cname) (instance_getattr inst cname).
Proof.
  destruct inst; try apply alike_raise. unfold instance_getattr.
  destruct (attrs !! cname);
    [apply alike_ret|apply (alike_class_getattr (t_dataclass cls))].
Qed.

Lemma alike_instantiate datacls d :
  alike (instantiate datacls d) (instantiate datacls d).
Proof.
  destruct datacls; simpl;
    try (case_bool_decide; [apply alike_ret|apply alike_raise]);
    try (case_bool_decide; apply alike_raise).
  apply alike_bind; [apply alike_get_class|]. intros dc. apply alike_lift.
Qed.

Lemma alike__create_dataclass s :
  alike (_create_dataclass s) (_create_dataclass s).
Proof.
  intros st1 st2 (Hn & Hc & Hk & Hd & Hm).
  cbv [_create_dataclass bind get fresh add_class cache_dataclass ret raise].
  rewrite Hd, Hm. destruct (dataclass_cache st2 !! sid s); [done|].
  destruct (_STRUCTURE_DATACLASS_MAP st2 !! sname s); simpl.
  { split; [done|]. repeat split; simpl; congruence. }
  destruct (spack s); simpl; rewrite Hn.
  - split; [done|]. repeat split; simpl; congruence.
  - split; [done|]. repeat split; simpl; congruence.
Qed.

Lemma alike__create_ctypes_class d b p :
  alike (_create_ctypes_class d b p) (_create_ctypes_class d b p).
Proof.
  intros st1 st2 (Hn & Hc & Hk & Hd & Hm).
  cbv [_create_ctypes_class bind get get_class fresh map_set cache_ctypes
       ret raise].
  rewrite Hk. destruct (ctypes_cache st2 !! (d, b, p)); simpl; [done|].
  rewrite Hc. destruct (classes st2 !! d) as [dc|]; simpl; [|done].
  case_bool_decide; [|split; [done|]; repeat split; simpl; congruence].
  destruct (mapM _ _); simpl; rewrite ?Hn;
    (split; [done|]); repeat split; simpl; congruence.
Qed.

Lemma alike_ctype_method cls : alike (ctype_method cls) (ctype_method cls).
Proof.
  destruct cls; try apply alike_raise. unfold ctype_method.
  apply alike_bind; [apply alike_get_class|]. intros dc.
  destruct (dc_cdata_base dc); [|apply alike_raise].
  destruct (dc_cdata_pack dc); [|apply alike_raise].
  apply alike__create_ctypes_class.
Qed.

Lemma alike_consult h cname ct cvalue dv :
  declines h →
  alike (consult (Some h) cname ct cvalue dv) (consult None cname ct cvalue dv).
Proof.
  intros Hh st1 st2 Hs. unfold consult, bind, call_hook.
  pose proof (Hh cname ct cvalue dv (hook_mem st1)) as Hr.
  destruct (h cname ct cvalue dv (hook_mem st1)) as [r mem]. simpl in Hr.
  subst r. simpl. split; [done|]. exact Hs.
Qed.

Lemma alike_decode_field h rec1 rec2 datacls bin padding d cname ct :
  declines h →
  (∀ t s p, alike (rec1 t s p (Some h)) (rec2 t s p None)) →
  alike (decode_field rec1 datacls bin padding (Some h) d cname ct)
        (decode_field rec2 datacls bin padding None d cname ct).
Proof.
  intros Hh Hrec. unfold decode_field.
  apply alike_bind; [apply alike_lift|]. intros cvalue.
  apply alike_bind; [apply alike_class_getattr|]. intros dv.
  apply alike_bind; [by apply alike_consult|]. intros [v|]; [apply alike_ret|].
  apply alike_bind; [|intros; apply alike_ret].
  destruct (_ && _); [apply alike_ret|].
  destruct (has_length_and_type cvalue).
  { apply alike_bind; [apply alike_lift|]. intros es.
    destruct (array_type cvalue) as [[]|]; try apply alike_ret.
    apply alike_bind; [|intros; apply alike_ret].
    apply alike_forM. intros e.
    apply alike_bind; [apply alike__create_dataclass|]. intros dc. apply Hrec. }
  destruct (has_fields cvalue); [|apply alike_ret].
  apply alike_bind; [apply Hrec|]. intros; apply alike_ret.
Qed.

Lemma alike__ctypes2dataclass h fuel :
  declines h →
  ∀ datacls bin padding,
    alike (_ctypes2dataclass fuel datacls bin padding (Some h))
          (_ctypes2dataclass fuel datacls bin padding None).
Proof.
  intros Hh. induction fuel as [|fuel IH]; intros; simpl; [apply alike_raise|].
  apply alike_bind; [|intros; apply alike_instantiate].
  apply alike_foldM. intros. by apply alike_decode_field.
Qed.

Lemma alike_encode_field h rec1 rec2 inst padding structure cname ct :
  declines h →
  (∀ v p, alike (rec1 v p (Some h)) (rec2 v p None)) →
  alike (encode_field rec1 inst padding (Some h) structure cname ct)
        (encode_field rec2 inst padding None structure cname ct).
Proof.
  intros Hh Hrec. unfold encode_field.
  apply alike_bind; [apply alike_lift|]. intros cvalue.
  apply alike_bind; [apply alike_instance_getattr|]. intros dv.
  apply alike_bind; [by apply alike_consult|]. intros [v|]; [apply alike_lift|].
  apply alike_bind; [|intros; apply alike_lift].
  destruct (has_length_and_type cvalue).
  { apply alike_bind; [apply alike_lift|]. intros es.
    destruct (array_type cvalue) as [[]|];
      try (apply alike_bind; [apply alike_lift|]; intros; apply alike_lift).
    apply alike_bind; [apply alike_forM; intros; apply Hrec|]. intros l.
    apply alike_bind; [apply alike_lift|]. intros; apply alike_lift. }
  destruct (has_fields cvalue); [|apply alike_ret].
  apply alike_bind; [apply Hrec|]. intros; apply alike_lift.
Qed.

Lemma alike__dataclass2ctypes h fuel :
  declines h →
  ∀ inst padding,
    alike (_dataclass2ctypes fuel inst padding (Some h))
          (_dataclass2ctypes fuel inst padding None).
Proof.
  intros Hh. induction fuel as [|fuel IH]; intros; simpl; [apply alike_raise|].
  apply alike_bind; [apply alike_ctype_method|]. intros cls.
  apply alike_bind; [|intros; apply alike_ret].
  apply alike_foldM. intros. by apply alike_encode_field.
Qed.

Lemma same_objects_refl st : same_objects st st.
Proof. by repeat split. Qed.

(** X18. A hook that answers [None] for every field is as good as no hook:
    both converters return the same value, or raise the same exception, and
    leave the same classes and caches behind, as the call without a hook.
    Only the hook's own memory and the record of its calls can differ. *)
Theorem declining_hook_is_no_hook h fuel st :
  declines h →
  (∀ datacls structure padding,
     let hooked := _ctypes2dataclass fuel datacls structure padding (Some h) st in
     let plain := _ctypes2dataclass fuel datacls structure padding None st in
     hooked.1 = plain.1 ∧ same_objects hooked.2 plain.2) ∧
  (∀ inst padding,
     let hooked := _dataclass2ctypes fuel inst padding (Some h) st in
     let plain := _dataclass2ctypes fuel inst padding None st in
     hooked.1 = plain.1 ∧ same_objects hooked.2 plain.2).
Proof.
  intros Hh. split; intros.
  - apply alike__ctypes2dataclass; [done|apply same_objects_refl].
  - apply alike__dataclass2ctypes; [done|apply same_objects_refl].
Qed.

Lemma declining_hook_is_no_hook_witness :
  let st := initial [ItemD] in
  (∀ datacls structure padding,
     let hooked :=
       _ctypes2dataclass 5 datacls structure padding (Some idle_hook) st in
     let plain := _ctypes2dataclass 5 datacls structure padding None st in
     hooked.1 = plain.1 ∧ same_objects hooked.2 plain.2) ∧
  (∀ inst padding,
     let hooked := _dataclass2ctypes 5 inst padding (Some idle_hook) st in
     let plain := _dataclass2ctypes 5 inst padding None st in
     hooked.1 = plain.1 ∧ same_objects hooked.2 plain.2).
Proof.
  intros st. apply (declining_hook_is_no_hook idle_hook 5 st).
  intros cname ct cvalue dv mem. reflexivity.
Defined.

(** ** Round trip of a structure of scalars *)






